(** * ProductService: product identifiers and parent aggregates

    A shallow embedding of [ProductService] (the product service of the
    admin portal, [lib/product-service.ts]) together with the fragment of
    the MongoDB document store it talks to: three collections keyed by
    [_id], the update modifiers [$set], [$inc], [$push] and [$pull], and
    the aggregation pipeline of [getNextProductId]. *)

From stdpp Require Import base numbers list strings gmap fin_maps sorting pretty.
From Stdlib Require Import ZArith Lia Ascii.

Local Open Scope Z_scope.

(** ** Strings and numbers *)

Module Js.

Fixpoint replicate_char (k : nat) (c : ascii) : string :=
  match k with
  | O => EmptyString
  | S k' => String c (replicate_char k' c)
  end.

(** [String.prototype.padStart(targetLength, padString)] for a one
    character [padString]: the string is filled up from the left, and a
    string that is already long enough is returned as it is. *)
Definition padStart (targetLength : nat) (c : ascii) (s : string) : string :=
  replicate_char (targetLength - String.length s) c +:+ s.

(** [Number.prototype.toString()] on an integer below 1e21: the plain
    decimal numeral, with a leading minus sign when negative. *)
Definition toString (n : Z) : string := pretty n.

End Js.

Module Bson.

Definition INT32_MIN : Z := -2147483648.
Definition INT32_MAX : Z := 2147483647.

Definition digit_of (c : ascii) : option Z :=
  match Ascii.is_nat c with
  | Some d => Some (Z.of_nat d)
  | None => None
  end.

(** Base 10 magnitude of a run of digits, read left to right; [None] as
    soon as a character is not a digit. *)
Fixpoint magnitude_from (acc : Z) (s : string) : option Z :=
  match s with
  | EmptyString => Some acc
  | String c r =>
      match digit_of c with
      | Some d => magnitude_from (10 * acc + d) r
      | None => None
      end
  end.

Definition magnitude (s : string) : option Z :=
  match s with
  | EmptyString => None
  | _ => magnitude_from 0 s
  end.

(** [$toInt] on a string: an optional sign followed by at least one
    decimal digit, and the value has to fit a 32 bit integer; anything
    else is a conversion failure. *)
Definition toInt (s : string) : option Z :=
  let signed :=
    match s with
    | String "-"%char r => option_map Z.opp (magnitude r)
    | String "+"%char r => magnitude r
    | _ => magnitude s
    end in
  match signed with
  | Some z => if decide (INT32_MIN ≤ z ≤ INT32_MAX) then Some z else None
  | None => None
  end.

(** [$substr: [s, start, -1]]: the rest of the string from byte [start]. *)
Fixpoint substr_from (start : nat) (s : string) : string :=
  match start, s with
  | O, _ => s
  | S k, String _ r => substr_from k r
  | S _, EmptyString => EmptyString
  end.

Fixpoint starts_with (pre s : string) : bool :=
  match pre, s with
  | EmptyString, _ => true
  | String a pre', String b s' => bool_decide (a = b) && starts_with pre' s'
  | String _ _, EmptyString => false
  end.

(** [$regex: "^prod_"]: the string starts with [prod_]. *)
Definition regex_prod (s : string) : bool := starts_with "prod_" s.

End Bson.

(** ** Documents *)

(** Modelled from the spec: the declarations of [types/product.ts] are not
    among the sources. The status of a product is active or inactive;
    [createProduct] only ever writes ['active']. *)
Inductive Status := active | inactive.

Module Product.

(** [Omit<Product, '_id'>], with the properties of the object literal
    built by [createProduct]. Dates are milliseconds since the epoch. *)
Record fields := mk {
  product_id : string;
  product_name : string;
  product_title : string;
  product_description : string;
  image_urls : list string;
  image_count : Z;
  subcategory_id : string;
  category_id : string;
  status : Status;
  created_at : Z;
  updated_at : Z
}.

(** [Product]: [{ _id, ...fields }]. *)
Record t := doc { _id : string; rest : fields }.

(** [Partial<Product>]: every property may be left out; one that is there
    carries a value of the type of its field. *)
Record partial := mk_partial {
  set__id : option string;
  set_product_id : option string;
  set_product_name : option string;
  set_product_title : option string;
  set_product_description : option string;
  set_image_urls : option (list string);
  set_image_count : option Z;
  set_subcategory_id : option string;
  set_category_id : option string;
  set_status : option Status;
  set_created_at : option Z;
  set_updated_at : option Z
}.

(** The object spread [{ ...updateData, updated_at: now }]: the later
    property wins. *)
Definition spread_updated_at (u : partial) (now : Z) : partial :=
  mk_partial (set__id u) (set_product_id u) (set_product_name u)
    (set_product_title u) (set_product_description u) (set_image_urls u)
    (set_image_count u) (set_subcategory_id u) (set_category_id u)
    (set_status u) (set_created_at u) (Some now).

(** [$set] on every field but [_id]: a supplied property replaces the
    stored one, the others stay. *)
Definition apply_set (u : partial) (p : fields) : fields :=
  mk (default (product_id p) (set_product_id u))
     (default (product_name p) (set_product_name u))
     (default (product_title p) (set_product_title u))
     (default (product_description p) (set_product_description u))
     (default (image_urls p) (set_image_urls u))
     (default (image_count p) (set_image_count u))
     (default (subcategory_id p) (set_subcategory_id u))
     (default (category_id p) (set_category_id u))
     (default (status p) (set_status u))
     (default (created_at p) (set_created_at u))
     (default (updated_at p) (set_updated_at u)).

End Product.

(** [ProductFormData] as the route handler builds it, without the
    [images] files that the service does not read. *)
Record ProductFormData := mkFormData {
  form_product_name : string;
  form_product_title : string;
  form_product_description : string;
  form_category_id : string;
  form_subcategory_id : string
}.

Module Category.

(** Modelled from the spec: the type [Category] of [types/product.ts] is
    not among the sources. A category document, stored under its [_id],
    has a name, the list of the identifiers of its products, their count
    and an update timestamp; the service writes the last three. *)
Record t := mk {
  name : string;
  product_ids : list string;
  product_count : Z;
  updated_at : Z
}.

(** [{ $push: { product_ids: pid }, $inc: { product_count: 1 },
      $set: { updated_at: now } }] *)
Definition push_inc_set (pid : string) (now : Z) (c : t) : t :=
  mk (name c) (product_ids c ++ [pid]) (product_count c + 1) now.

(** [{ $pull: { product_ids: pid }, $inc: { product_count: -1 },
      $set: { updated_at: now } }]; [$pull] removes every occurrence. *)
Definition pull_dec_set (pid : string) (now : Z) (c : t) : t :=
  mk (name c) (filter (λ x, x ≠ pid) (product_ids c))
     (product_count c + -1) now.

End Category.

Module Subcategory.

(** Modelled from the spec: the type [Subcategory] of [types/product.ts]
    is not among the sources. A subcategory document has the fields of a
    category document and the identifier of the category that owns it. *)
Record t := mk {
  name : string;
  category_id : string;
  product_ids : list string;
  product_count : Z;
  updated_at : Z
}.

Definition push_inc_set (pid : string) (now : Z) (c : t) : t :=
  mk (name c) (category_id c) (product_ids c ++ [pid])
     (product_count c + 1) now.

Definition pull_dec_set (pid : string) (now : Z) (c : t) : t :=
  mk (name c) (category_id c) (filter (λ x, x ≠ pid) (product_ids c))
     (product_count c + -1) now.

End Subcategory.

(** ** The world: database and clock *)

(** The three collections of the database, each keyed by [_id], and the
    wall clock: [clock k] is what the [k]-th call of [new Date()] reads. *)
Record World := mkWorld {
  products : gmap string Product.fields;
  categories : gmap string Category.t;
  subcategories : gmap string Subcategory.t;
  clock : nat → Z;
  ticks : nat
}.

Inductive MongoError :=
  | DuplicateKey      (* E11000: insert of an existing [_id] *)
  | ConversionFailure (* [$toInt] on a string that is no 32 bit integer *)
  | ImmutableField.   (* [$set] that would change [_id] *)

(** What an awaited promise settles to, with the world it leaves. *)
Inductive Outcome (A : Type) :=
  | Resolved (a : A) (w : World)
  | Rejected (e : MongoError) (w : World).
Arguments Resolved {A} a w.
Arguments Rejected {A} e w.

Definition Async (A : Type) : Type := World → Outcome A.

Global Instance Async_ret : MRet Async := λ A a w, Resolved a w.
Global Instance Async_bind : MBind Async := λ A B k m w,
  match m w with
  | Resolved a w' => k a w'
  | Rejected e w' => Rejected e w'
  end.

Definition throw {A} (e : MongoError) : Async A := λ w, Rejected e w.
Definition read {A} (f : World → A) : Async A := λ w, Resolved (f w) w.
Definition write (f : World → World) : Async unit := λ w, Resolved () (f w).

Definition with_products (f : gmap string Product.fields → gmap string Product.fields)
    (w : World) : World :=
  mkWorld (f (products w)) (categories w) (subcategories w) (clock w) (ticks w).
Definition with_categories (f : gmap string Category.t → gmap string Category.t)
    (w : World) : World :=
  mkWorld (products w) (f (categories w)) (subcategories w) (clock w) (ticks w).
Definition with_subcategories
    (f : gmap string Subcategory.t → gmap string Subcategory.t)
    (w : World) : World :=
  mkWorld (products w) (categories w) (f (subcategories w)) (clock w) (ticks w).

(** [new Date()] *)
Definition new_Date : Async Z := λ w,
  Resolved (clock w (ticks w))
    (mkWorld (products w) (categories w) (subcategories w) (clock w) (S (ticks w))).

(** ** Collection operations *)

Module Db.

(** The documents of the [products] collection. *)
Definition product_docs (w : World) : list Product.t :=
  (λ kv, Product.doc kv.1 kv.2) <$> map_to_list (products w).

(** [products.insertOne({ _id: id, ...p })] *)
Definition products_insertOne (id : string) (p : Product.fields) : Async unit :=
  found ← read (λ w, products w !! id);
  match found with
  | Some _ => throw DuplicateKey
  | None => write (with_products (insert id p))
  end.

(** [products.findOne({ _id: id })] *)
Definition products_findOne (id : string) : Async (option Product.t) :=
  read (λ w, Product.doc id <$> products w !! id).

(** [products.deleteOne({ _id: id })] *)
Definition products_deleteOne (id : string) : Async unit :=
  write (with_products (delete id)).

(** [products.updateOne({ _id: id }, { $set: u })]: nothing happens when
    no document has that [_id]; a [$set] that would give the matched
    document another [_id] is refused. *)
Definition products_updateOne_set (id : string) (u : Product.partial) : Async unit :=
  found ← read (λ w, products w !! id);
  match found with
  | None => mret ()
  | Some p =>
      match Product.set__id u with
      | Some id' =>
          if decide (id' = id)
          then write (with_products (insert id (Product.apply_set u p)))
          else throw ImmutableField
      | None => write (with_products (insert id (Product.apply_set u p)))
      end
  end.

(** [categories.updateOne({ _id: id }, modifiers)] and the same on
    [subcategories]; without a matching document nothing is written. A
    write that the store fails to carry out, or refuses because the
    document would grow past its size limit, is not represented: what is
    proved of these writes is proved of calls that resolve. *)
Definition categories_updateOne (id : string) (f : Category.t → Category.t)
    : Async unit :=
  write (with_categories (alter f id)).

Definition subcategories_updateOne (id : string)
    (f : Subcategory.t → Subcategory.t) : Async unit :=
  write (with_subcategories (alter f id)).

(** [sort({ created_at: -1 })]: a document comes before every document
    that is not newer. *)
Definition newer_first (a b : Product.t) : Prop :=
  Product.created_at (Product.rest b) ≤ Product.created_at (Product.rest a).

Global Instance newer_first_dec : RelDecision newer_first.
Proof. intros a b. unfold newer_first. apply _. Defined.

(** [products.find({}).sort({ created_at: -1 }).toArray()] *)
Definition products_find_sorted : Async (list Product.t) :=
  read (λ w, merge_sort newer_first (product_docs w)).

(** The stages of the pipeline of [getNextProductId]. *)

(** [{ $match: { _id: { $regex: "^prod_" } } }] *)
Definition stage_match (docs : list Product.t) : list Product.t :=
  filter (λ d, Bson.regex_prod (Product._id d) = true) docs.

(** [numeric_part: { $toInt: { $substr: ["$_id", 5, -1] } }] *)
Definition numeric_part (d : Product.t) : option Z :=
  Bson.toInt (Bson.substr_from 5 (Product._id d)).

(** [{ $project: ... }]: one failing conversion fails the stage. *)
Definition stage_project (docs : list Product.t) : option (list Z) :=
  mapM numeric_part docs.

(** [{ $sort: { numeric_part: -1 } }] *)
Definition descending (a b : Z) : Prop := b ≤ a.

Global Instance descending_dec : RelDecision descending.
Proof. intros a b. unfold descending. apply _. Defined.

Definition stage_sort (parts : list Z) : list Z := merge_sort descending parts.

(** [{ $limit: 1 }] *)
Definition stage_limit (parts : list Z) : list Z := take 1 parts.

(** [products.aggregate(pipeline).toArray()] *)
Definition products_aggregate : Async (list Z) := λ w,
  match stage_project (stage_match (product_docs w)) with
  | Some parts => Resolved (stage_limit (stage_sort parts)) w
  | None => Rejected ConversionFailure w
  end.

End Db.

(** ** ProductService *)

(** [let nextNum = 1; if (result.length > 0) nextNum = result[0].numeric_part + 1] *)
Definition nextNum (result : list Z) : Z :=
  match result with
  | [] => 1
  | top :: _ => top + 1
  end.

(** [`prod_${nextNum.toString().padStart(4, '0')}`] *)
Definition template_prod (n : Z) : string :=
  "prod_" +:+ Js.padStart 4 "0"%char (Js.toString n).

Definition getNextProductId : Async string :=
  result ← Db.products_aggregate;
  mret (template_prod (nextNum result)).

Definition getAllProducts : Async (list Product.t) :=
  Db.products_find_sorted.

Definition createProduct (productData : ProductFormData) (imageUrls : list string)
    : Async Product.t :=
  productId ← getNextProductId;
  created ← new_Date;
  updated ← new_Date;
  let product :=
    Product.mk productId
      (form_product_name productData)
      (form_product_title productData)
      (form_product_description productData)
      imageUrls
      (Z.of_nat (length imageUrls))
      (form_subcategory_id productData)
      (form_category_id productData)
      active created updated in
  Db.products_insertOne productId product;;
  now ← new_Date;
  Db.categories_updateOne (form_category_id productData)
    (Category.push_inc_set productId now);;
  now' ← new_Date;
  Db.subcategories_updateOne (form_subcategory_id productData)
    (Subcategory.push_inc_set productId now');;
  mret (Product.doc productId product).

Definition getProductById (productId : string) : Async (option Product.t) :=
  Db.products_findOne productId.

Definition updateProduct (productId : string) (updateData : Product.partial)
    : Async unit :=
  now ← new_Date;
  Db.products_updateOne_set productId (Product.spread_updated_at updateData now).

Definition deleteProduct (productId : string) : Async unit :=
  found ← getProductById productId;
  match found with
  | None => mret ()
  | Some product =>
      Db.products_deleteOne productId;;
      now ← new_Date;
      Db.categories_updateOne (Product.category_id (Product.rest product))
        (Category.pull_dec_set productId now);;
      now' ← new_Date;
      Db.subcategories_updateOne (Product.subcategory_id (Product.rest product))
        (Subcategory.pull_dec_set productId now')
  end.

(** ** Vocabulary of the statements *)

(** The world an operation leaves, however it settles. *)
Definition world_of {A} (o : Outcome A) : World :=
  match o with
  | Resolved _ w => w
  | Rejected _ w => w
  end.

(** How often an identifier occurs in a product-ID list. *)
Definition occurrences (x : string) (l : list string) : nat :=
  length (filter (λ y, y = x) l).

(** [createProduct] called once per payload, each call awaited before the
    next one starts; the created products in call order. *)
Fixpoint create_serially (calls : list (ProductFormData * list string))
    : Async (list Product.t) :=
  match calls with
  | [] => mret []
  | call :: rest =>
      p ← createProduct call.1 call.2;
      ps ← create_serially rest;
      mret (p :: ps)
  end.

(** ** The allocation rule in the words of the specification *)

(** The numeric suffix of an identifier of the form [prod_<digits>], one
    digit at least; [None] for every other identifier. *)
Definition prod_digits_suffix (id : string) : option Z :=
  if Bson.regex_prod id then Bson.magnitude (Bson.substr_from 5 id) else None.

(** The identifiers of all stored products. *)
Definition stored_ids (w : World) : list string := (map_to_list (products w)).*1.

(** The greatest suffix among the identifiers of that form, 0 when there
    is none, plus one, zero-padded to four digits behind [prod_]. *)
Definition next_id_in_words (ids : list string) : string :=
  template_prod (foldr Z.max 0 (omap prod_digits_suffix ids) + 1).

(** The stored identifiers are exactly those built from 1 to [k]. *)
Definition allocated_through (k : Z) (w : World) : Prop :=
  ∀ id, is_Some (products w !! id) ↔ ∃ i, 1 ≤ i ≤ k ∧ id = template_prod i.

(** ** Worlds used in the examples *)

Definition widget : ProductFormData := mkFormData "Widget" "A widget" "Round" "C1" "S1".

(** Category [C1] and subcategory [S1], both empty, no products. *)
Definition shop : World :=
  mkWorld ∅
    {[ "C1" := Category.mk "Tools" [] 0 0 ]}
    {[ "S1" := Subcategory.mk "Hand tools" "C1" [] 0 0 ]}
    (λ k, 1000 + Z.of_nat k) 0.

Definition gadget : ProductFormData := mkFormData "Gadget" "A gadget" "Square" "C1" "S1".

(** The shop after [Widget] was created with two images. *)
Definition shop1 : World := world_of (createProduct widget ["u1"; "u2"] shop).

(** The shop after [Gadget] was created as well. *)
Definition shop2 : World := world_of (createProduct gadget ["u3"] shop1).

(** A shop whose category forgot [prod_0001], although its count is
    right for the list it has. *)
Definition drifted : World :=
  mkWorld (products shop1)
    {[ "C1" := Category.mk "Tools" ["prod_0007"] 1 0 ]}
    (subcategories shop1) (clock shop1) (ticks shop1).

(** A shop whose category counts four products more than it lists, and
    does not list [prod_0001]. *)
Definition overcounted : World :=
  mkWorld (products shop1)
    {[ "C1" := Category.mk "Tools" ["prod_0007"] 5 0 ]}
    (subcategories shop1) (clock shop1) (ticks shop1).

(** A database without any document: no products, and no category or
    subcategory that a call could name. *)
Definition bare : World :=
  mkWorld ∅ ∅ ∅ (λ k, 1000 + Z.of_nat k) 0.

(** A store whose newest identifier has used up the four digits. *)
Definition crowded : World :=
  mkWorld
    {[ "prod_9999" :=
         Product.mk "prod_9999" "Last" "Last of four digits" "-" [] 0 "S1" "C1"
           active 0 0 ]}
    ∅ ∅ (λ k, 1000 + Z.of_nat k) 0.

(** Stores holding one product under an identifier that starts with
    [prod_] and does not go on with digits only. *)
Definition stray (id : string) : World :=
  mkWorld
    {[ id := Product.mk id "Stray" "Imported by hand" "-" [] 0 "S1" "C1"
               active 0 0 ]}
    ∅ ∅ (λ k, 1000 + Z.of_nat k) 0.

(** Partial updates used in the examples. *)

(** [{ _id: "prod_9999" }] *)
Definition rename : Product.partial :=
  Product.mk_partial (Some "prod_9999") None None None None None None None None
    None None None.

(** [{ category_id: "C2", updated_at: 5 }] *)
Definition move_to_C2 : Product.partial :=
  Product.mk_partial None None None None None None None None (Some "C2") None
    None (Some 5).

(** [{ product_id: "prod_9999", created_at: 0 }] *)
Definition backdate : Product.partial :=
  Product.mk_partial None (Some "prod_9999") None None None None None None None
    None (Some 0) None.

(** [{ image_urls: ["u9"] }] *)
Definition only_images : Product.partial :=
  Product.mk_partial None None None None None (Some ["u9"]) None None None None
    None None.

(** [{ image_urls: ["u9"], image_count: 1 }] *)
Definition images_and_count : Product.partial :=
  Product.mk_partial None None None None None (Some ["u9"]) (Some 1) None None
    None None None.

(** ** The other queries of the service *)

(** [categories.find({}).toArray()]; a document is its [_id] with its
    fields. *)
Definition getAllCategories : Async (list (string * Category.t)) :=
  read (λ w, map_to_list (categories w)).

(** [subcategories.find({ category_id: categoryId }).toArray()] *)
Definition getSubcategoriesByCategory (categoryId : string)
    : Async (list (string * Subcategory.t)) :=
  read (λ w, filter (λ kv, Subcategory.category_id kv.2 = categoryId)
               (map_to_list (subcategories w))).

(** ** Consistency of the catalogue *)

(** Every category counts the identifiers it lists, lists none twice, and
    lists only stored products that name it. *)
Definition categories_consistent (w : World) : Prop :=
  ∀ k c, categories w !! k = Some c →
    Category.product_count c = Z.of_nat (length (Category.product_ids c)) ∧
    NoDup (Category.product_ids c) ∧
    ∀ id, id ∈ Category.product_ids c →
      ∃ p, products w !! id = Some p ∧ Product.category_id p = k.

Definition subcategories_consistent (w : World) : Prop :=
  ∀ k sc, subcategories w !! k = Some sc →
    Subcategory.product_count sc
      = Z.of_nat (length (Subcategory.product_ids sc)) ∧
    NoDup (Subcategory.product_ids sc) ∧
    ∀ id, id ∈ Subcategory.product_ids sc →
      ∃ p, products w !! id = Some p ∧ Product.subcategory_id p = k.

(** Every stored product is listed by the category and the subcategory
    it names, as far as they exist. *)
Definition products_listed (w : World) : Prop :=
  ∀ id p, products w !! id = Some p →
    (∀ c, categories w !! Product.category_id p = Some c →
       id ∈ Category.product_ids c) ∧
    (∀ sc, subcategories w !! Product.subcategory_id p = Some sc →
       id ∈ Subcategory.product_ids sc).

Definition consistent (w : World) : Prop :=
  categories_consistent w ∧ subcategories_consistent w ∧ products_listed w.

(** A call of the service that writes, and a series of such calls, each
    awaited before the next; the series is rejected as soon as one of its
    calls is. *)
Inductive Call :=
  | CallCreate (productData : ProductFormData) (imageUrls : list string)
  | CallDelete (productId : string).

Definition serve (c : Call) : Async unit :=
  match c with
  | CallCreate productData imageUrls =>
      createProduct productData imageUrls;; mret ()
  | CallDelete productId => deleteProduct productId
  end.

Fixpoint serve_all (cs : list Call) : Async unit :=
  match cs with
  | [] => mret ()
  | c :: rest => serve c;; serve_all rest
  end.

(** The same category and subcategory identifiers are stored in both
    worlds, under the same names and owning categories. *)
Definition parents_kept (w w' : World) : Prop :=
  ∀ k,
    (Category.name <$> categories w' !! k)
      = (Category.name <$> categories w !! k) ∧
    (Subcategory.name <$> subcategories w' !! k)
      = (Subcategory.name <$> subcategories w !! k) ∧
    (Subcategory.category_id <$> subcategories w' !! k)
      = (Subcategory.category_id <$> subcategories w !! k).

(** ** The route handler of [/api/products] *)

Module Route.

(** An uploaded file: its name, media type and bytes. *)
Record File := mkFile {
  file_name : string;
  file_type : string;
  file_bytes : string
}.

(** The multipart body of a request, as the handler reads it: what
    [formData.get] gives for the seven text fields ([None] for [null]),
    and the entries whose value is a [File], with their keys, in order. *)
Record Request := mkRequest {
  product_name : option string;
  product_title : option string;
  product_description : option string;
  category_id : option string;
  subcategory_id : option string;
  category_name : option string;
  subcategory_name : option string;
  files : list (string * File)
}.

(** The JSON bodies the handler sends. *)
Inductive Body :=
  | Products (data : list Product.t)
  | Created (data : Product.t) (message : string)
  | Failed (error : string).

Record Response := mkResponse { status : Z; body : Body }.

(** [!value] on a string or [null]. *)
Definition falsy (value : option string) : bool :=
  match value with
  | None => true
  | Some EmptyString => true
  | Some (String _ _) => false
  end.

(** [CloudinaryService.uploadMultipleImages(buffers, productId,
    categoryName, subcategoryName)], which is not among the sources: one
    URL per image, or [None] when the upload throws. *)
Definition Uploader : Type :=
  list string → string → option string → option string → option (list string).

Definition GET : Async Response := λ w,
  match getAllProducts w with
  | Resolved products w' => Resolved (mkResponse 200 (Products products)) w'
  | Rejected _ w' => Resolved (mkResponse 500 (Failed "Failed to fetch products")) w'
  end.

Definition POST (uploadMultipleImages : Uploader) (request : Request)
    : Async Response := λ w,
  if falsy (product_name request) || falsy (product_title request)
     || falsy (product_description request) || falsy (category_id request)
     || falsy (subcategory_id request)
  then Resolved (mkResponse 400 (Failed "Missing required fields")) w
  else
    let imageFiles :=
      filter (λ entry, Bson.starts_with "images" entry.1 = true)
        (files request) in
    if bool_decide (length imageFiles = 0%nat)
    then Resolved (mkResponse 400 (Failed "At least one image is required")) w
    else
      match getNextProductId w with
      | Rejected _ w1 =>
          Resolved (mkResponse 500 (Failed "Failed to create product")) w1
      | Resolved productId w1 =>
          let imageBuffers := (λ entry, file_bytes entry.2) <$> imageFiles in
          match uploadMultipleImages imageBuffers productId
                  (category_name request) (subcategory_name request) with
          | None =>
              Resolved (mkResponse 500 (Failed "Failed to create product")) w1
          | Some imageUrls =>
              let productData :=
                mkFormData (default "" (product_name request))
                  (default "" (product_title request))
                  (default "" (product_description request))
                  (default "" (category_id request))
                  (default "" (subcategory_id request)) in
              match createProduct productData imageUrls w1 with
              | Rejected _ w2 =>
                  Resolved
                    (mkResponse 500 (Failed "Failed to create product")) w2
              | Resolved product w2 =>
                  Resolved
                    (mkResponse 200
                       (Created product "Product created successfully")) w2
              end
          end
      end.

(** An uploader for the examples: one URL per buffer, under the folder
    of the product. *)
Definition folder_uploader : Uploader :=
  λ buffers productId _ _, Some ((λ b, productId +:+ "/" +:+ b) <$> buffers).

Definition widget_request : Request :=
  mkRequest (Some "Widget") (Some "A widget") (Some "Round") (Some "C1")
    (Some "S1") (Some "Tools") (Some "Hand tools")
    [("images_0", mkFile "a.png" "image/png" "AAA");
     ("images_1", mkFile "b.png" "image/png" "BBB")].

End Route.

(** ** The product list page *)

Module ProductListPage.

Definition ITEMS_PER_PAGE : Z := 10.

(** [Array.prototype.slice(start, end)] with integer arguments: a negative
    index counts from the end, and both are clamped to the array. *)
Definition slice {A} (start final : Z) (l : list A) : list A :=
  let len := Z.of_nat (length l) in
  let k := if decide (start < 0) then Z.max (len + start) 0 else Z.min start len in
  let e := if decide (final < 0) then Z.max (len + final) 0 else Z.min final len in
  take (Z.to_nat (e - k)) (drop (Z.to_nat k) l).

(** [Math.ceil(filteredProducts.length / ITEMS_PER_PAGE)] *)
Definition totalPages {A} (filteredProducts : list A) : Z :=
  (Z.of_nat (length filteredProducts) + (ITEMS_PER_PAGE - 1)) / ITEMS_PER_PAGE.

Definition paginatedProducts {A} (filteredProducts : list A) (currentPage : Z)
    : list A :=
  let startIndex := (currentPage - 1) * ITEMS_PER_PAGE in
  slice startIndex (startIndex + ITEMS_PER_PAGE) filteredProducts.

(** [goToPage(page)]: the page shown afterwards. *)
Definition goToPage {A} (filteredProducts : list A) (currentPage page : Z) : Z :=
  if decide (1 ≤ page ∧ page ≤ totalPages filteredProducts)
  then page else currentPage.

(** The numbers on the page buttons:
    [Array.from({ length: Math.min(5, totalPages) }, (_, i) => pageNum)]. *)
Definition pageNum (totalPages currentPage i : Z) : Z :=
  if decide (totalPages ≤ 5) then i + 1
  else if decide (currentPage ≤ 3) then i + 1
  else if decide (totalPages - 2 ≤ currentPage) then totalPages - 4 + i
  else currentPage - 2 + i.

Definition pageButtons (totalPages currentPage : Z) : list Z :=
  (λ i, pageNum totalPages currentPage (Z.of_nat i))
    <$> seq 0 (Z.to_nat (Z.min 5 totalPages)).

(** The caption "Showing [first] to [last] of [n] products". *)
Definition showing_first (currentPage : Z) : Z :=
  (currentPage - 1) * ITEMS_PER_PAGE + 1.

Definition showing_last {A} (filteredProducts : list A) (currentPage : Z) : Z :=
  Z.min (currentPage * ITEMS_PER_PAGE) (Z.of_nat (length filteredProducts)).

End ProductListPage.

(** ** The image picker *)

Module ImageUpload.

(** What the picker reads of a [File]. *)
Record File := mkFile { name : string; type : string; size : Z }.

Record Props := mkProps {
  maxImages : Z;
  acceptedTypes : list string;
  maxSizePerImage : Z   (* in MB *)
}.

Definition defaultProps : Props :=
  mkProps 10 ["image/jpeg"; "image/jpg"; "image/png"; "image/webp"] 5.

(** [Array.prototype.join(', ')] *)
Fixpoint join (sep : string) (l : list string) : string :=
  match l with
  | [] => ""
  | [x] => x
  | x :: rest => x +:+ sep +:+ join sep rest
  end.

Definition acceptable (props : Props) (file : File) : Prop :=
  type file ∈ acceptedTypes props ∧
  size file ≤ maxSizePerImage props * 1024 * 1024.

(** [validateFiles]: the loop body run on the files from position
    [index] on. *)
Fixpoint validate_from (props : Props) (index : nat) (files : list File)
    : list File * list string :=
  match files with
  | [] => ([], [])
  | file :: rest =>
      let (validFiles, newErrors) := validate_from props (S index) rest in
      if negb (bool_decide (type file ∈ acceptedTypes props))
      then (validFiles,
            ("File " +:+ Js.toString (Z.of_nat index + 1)
               +:+ ": Invalid file type. Please upload "
               +:+ join ", " (acceptedTypes props)) :: newErrors)
      else if bool_decide (maxSizePerImage props * 1024 * 1024 < size file)
      then (validFiles,
            ("File " +:+ Js.toString (Z.of_nat index + 1)
               +:+ ": File size exceeds "
               +:+ Js.toString (maxSizePerImage props) +:+ "MB") :: newErrors)
      else (file :: validFiles, newErrors)
  end.

Definition validateFiles (props : Props) (files : list File)
    : list File * list string :=
  validate_from props 0 files.

(** The state of the picker that the handlers below write: the selected
    images and the error messages. The previews, which file readers fill
    in as they finish, are not part of it. *)
Record State := mkState { selectedImages : list File; errors : list string }.

Definition initial : State := mkState [] [].

(** [handleFileSelect(files)], [None] for [null]. *)
Definition handleFileSelect (props : Props) (files : option (list File))
    (st : State) : State :=
  match files with
  | None => st
  | Some fileArray =>
      let totalFiles :=
        Z.of_nat (length (selectedImages st)) + Z.of_nat (length fileArray) in
      if bool_decide (maxImages props < totalFiles)
      then mkState (selectedImages st)
             ["Maximum " +:+ Js.toString (maxImages props) +:+ " images allowed"]
      else
        let (validFiles, validationErrors) := validateFiles props fileArray in
        if bool_decide (0 < length validationErrors)%nat
        then mkState (selectedImages st) validationErrors
        else mkState (selectedImages st ++ validFiles) []
  end.

(** [selectedImages.filter((_, i) => i !== index)] *)
Fixpoint remove_at {A} (i : nat) (index : Z) (l : list A) : list A :=
  match l with
  | [] => []
  | x :: rest =>
      if bool_decide (Z.of_nat i ≠ index)
      then x :: remove_at (S i) index rest
      else remove_at (S i) index rest
  end.

Definition removeImage (index : Z) (st : State) : State :=
  mkState (remove_at 0 index (selectedImages st)) [].

End ImageUpload.

Example padStart_short : Js.padStart 4 "0"%char (Js.toString 7) = "0007".
Proof. reflexivity. Qed.
Example padStart_long : Js.padStart 4 "0"%char (Js.toString 12345) = "12345".
Proof. vm_compute. reflexivity. Qed.
Example toInt_neg : Bson.toInt "-5" = Some (-5).
Proof. reflexivity. Qed.
Example toInt_big : Bson.toInt "2147483648" = None.
Proof. reflexivity. Qed.
Example toInt_pad : Bson.toInt (Bson.substr_from 5 "prod_0008") = Some 8.
Proof. reflexivity. Qed.

Example scenario_create :
  match createProduct widget ["u1"; "u2"] shop with
  | Resolved p w =>
      Product._id p = "prod_0001" ∧
      Product.image_count (Product.rest p) = 2 ∧
      (Category.product_count <$> categories w !! "C1") = Some 1 ∧
      (Subcategory.product_count <$> subcategories w !! "S1") = Some 1
  | Rejected _ _ => False
  end.
Proof. vm_compute. tauto. Qed.

Example scenario_delete :
  match deleteProduct "prod_0001" shop1 with
  | Resolved _ w =>
      products w !! "prod_0001" = None ∧
      (Category.product_count <$> categories w !! "C1") = Some 0 ∧
      (Subcategory.product_count <$> subcategories w !! "S1") = Some 0
  | Rejected _ _ => False
  end.
Proof. vm_compute. tauto. Qed.

Example scenario_list :
  Product._id <$> match getAllProducts shop2 with
                  | Resolved ps _ => ps
                  | Rejected _ _ => []
                  end
  = ["prod_0002"; "prod_0001"].
Proof. vm_compute. reflexivity. Qed.

(** ** Decimal numerals: printing, padding and reading back *)

Section numerals.

Lemma digit_of_pretty_N_char (d : N) :
  (d < 10)%N → Bson.digit_of (pretty_N_char d) = Some (Z.of_N d).
Proof.
  intros Hd.
  assert (d = 0 ∨ d = 1 ∨ d = 2 ∨ d = 3 ∨ d = 4 ∨ d = 5 ∨ d = 6 ∨ d = 7
          ∨ d = 8 ∨ d = 9)%N as Hcases by lia.
  repeat (destruct Hcases as [->|Hcases]; [reflexivity|]).
  by subst.
Qed.

(** Reading the numeral printed for [x] in front of [s] shifts the
    accumulator by the digits of [x]. *)
Lemma magnitude_from_pretty_N_go (x : N) :
  ∃ k : nat, ∀ acc s,
    Bson.magnitude_from acc (pretty_N_go x s)
    = Bson.magnitude_from (acc * 10 ^ Z.of_nat k + Z.of_N x) s.
Proof.
  induction (N.lt_wf_0 x) as [x _ IH].
  destruct (decide (x = 0%N)) as [->|Hx].
  - exists 0%nat. intros acc s. rewrite pretty_N_go_0. f_equal. lia.
  - destruct (IH (x `div` 10)%N) as [k Hk].
    { apply N.div_lt; lia. }
    exists (S k). intros acc s.
    rewrite pretty_N_go_step by lia. rewrite Hk. simpl.
    rewrite digit_of_pretty_N_char by (apply N.mod_lt; lia).
    f_equal. rewrite Nat2Z.inj_succ, Z.pow_succ_r by lia.
    pose proof (N.div_mod x 10 ltac:(lia)) as Hdm.
    rewrite N2Z.inj_div. rewrite N2Z.inj_mod.
    change (Z.of_N 10) with 10.
    pose proof (Z.div_mod (Z.of_N x) 10 ltac:(lia)). lia.
Qed.

Lemma length_pretty_N_go_mono (x : N) (s : string) :
  (String.length s ≤ String.length (pretty_N_go x s))%nat.
Proof.
  revert s. induction (N.lt_wf_0 x) as [x _ IH]. intros s.
  destruct (decide (x = 0%N)) as [->|Hx].
  - by rewrite pretty_N_go_0.
  - rewrite pretty_N_go_step by lia.
    etrans; [|apply IH; apply N.div_lt; lia]. simpl. lia.
Qed.

(** A number of at least [10^k] prints with more than [k] digits. *)
Lemma length_pretty_N_go_pow (k : nat) :
  ∀ (x : N) (s : string), (10 ^ N.of_nat k ≤ x)%N →
    (String.length s + S k ≤ String.length (pretty_N_go x s))%nat.
Proof.
  induction k as [|k IH]; intros x s Hx.
  - change (10 ^ N.of_nat 0)%N with 1%N in Hx.
    rewrite pretty_N_go_step by lia.
    etrans; [|apply length_pretty_N_go_mono]. simpl. lia.
  - rewrite Nat2N.inj_succ, N.pow_succ_r' in Hx.
    rewrite pretty_N_go_step by lia.
    etrans; [|apply IH].
    + simpl. lia.
    + apply N.div_le_lower_bound; lia.
Qed.

Lemma toString_nonneg (n : Z) :
  0 ≤ n → Js.toString n = pretty (Z.to_N n).
Proof.
  intros Hn. destruct n as [|p|p]; [done|done|lia].
Qed.

Lemma toString_pos_go (n : Z) :
  0 < n → Js.toString n = pretty_N_go (Z.to_N n) "".
Proof.
  intros Hn. rewrite toString_nonneg by lia.
  unfold pretty, pretty_N. case_decide; [lia|done].
Qed.

Lemma magnitude_from_toString (n : Z) :
  0 ≤ n → Bson.magnitude_from 0 (Js.toString n) = Some n.
Proof.
  intros Hn. destruct (decide (n = 0)) as [->|Hne]; [done|].
  rewrite toString_pos_go by lia.
  destruct (magnitude_from_pretty_N_go (Z.to_N n)) as [k Hk].
  rewrite Hk. simpl. f_equal. lia.
Qed.

Lemma length_toString_pos (n : Z) :
  0 ≤ n → (1 ≤ String.length (Js.toString n))%nat.
Proof.
  intros Hn. destruct (decide (n = 0)) as [->|Hne]; [simpl; lia|].
  rewrite toString_pos_go by lia.
  pose proof (length_pretty_N_go_pow 0 (Z.to_N n) "") as Hlen.
  simpl in Hlen. apply Hlen. lia.
Qed.

Lemma length_toString_wide (n : Z) :
  9999 < n → (5 ≤ String.length (Js.toString n))%nat.
Proof.
  intros Hn. rewrite toString_pos_go by lia.
  pose proof (length_pretty_N_go_pow 4 (Z.to_N n) "") as Hlen.
  simpl in Hlen. apply Hlen. change (10 ^ 4)%N with 10000%N. lia.
Qed.

Lemma magnitude_from_zeros (k : nat) (s : string) :
  Bson.magnitude_from 0 (Js.replicate_char k "0" +:+ s)
  = Bson.magnitude_from 0 s.
Proof. induction k as [|k IH]; [done|]. simpl. apply IH. Qed.

Lemma string_length_app (s t : string) :
  String.length (s +:+ t) = (String.length s + String.length t)%nat.
Proof. induction s as [|c s IH]; simpl; [done|]. by rewrite IH. Qed.

Lemma magnitude_padStart_toString (n : Z) :
  0 ≤ n → Bson.magnitude (Js.padStart 4 "0" (Js.toString n)) = Some n.
Proof.
  intros Hn. unfold Bson.magnitude.
  pose proof (length_toString_pos n Hn) as Hlen.
  assert (Bson.magnitude_from 0 (Js.padStart 4 "0" (Js.toString n)) = Some n)
    as Hmag.
  { unfold Js.padStart. rewrite magnitude_from_zeros.
    by apply magnitude_from_toString. }
  destruct (Js.padStart 4 "0" (Js.toString n)) as [|c r] eqn:Hpad; [|done].
  apply (f_equal String.length) in Hpad. unfold Js.padStart in Hpad.
  rewrite string_length_app in Hpad. simpl in Hpad. lia.
Qed.

(** A string that reads as a magnitude carries no sign, so [$toInt]
    only range-checks it. *)
Lemma toInt_of_magnitude (s : string) (v : Z) :
  Bson.magnitude s = Some v →
  Bson.toInt s
  = if decide (Bson.INT32_MIN ≤ v ≤ Bson.INT32_MAX) then Some v else None.
Proof.
  intros Hmag. destruct s as [|c r]; [done|].
  assert (c ≠ "-"%char ∧ c ≠ "+"%char) as [Hm Hp].
  { unfold Bson.magnitude in Hmag. simpl in Hmag.
    destruct (Bson.digit_of c) eqn:Hd; [|done].
    split; intros ->; discriminate Hd. }
  unfold Bson.toInt.
  assert ((match String c r with
           | String "-"%char r0 => option_map Z.opp (Bson.magnitude r0)
           | String "+"%char r0 => Bson.magnitude r0
           | _ => Bson.magnitude (String c r)
           end) = Bson.magnitude (String c r)) as ->; [|by rewrite Hmag].
  destruct c as [[] [] [] [] [] [] [] []]; try reflexivity; congruence.
Qed.

End numerals.

(** ** Identifiers built by the template *)

Section identifiers.

Lemma substr_template_prod (n : Z) :
  Bson.substr_from 5 (template_prod n) = Js.padStart 4 "0" (Js.toString n).
Proof. reflexivity. Qed.

Lemma regex_template_prod (n : Z) : Bson.regex_prod (template_prod n) = true.
Proof. reflexivity. Qed.

Lemma toInt_template_prod (n : Z) :
  0 ≤ n ≤ Bson.INT32_MAX →
  Bson.toInt (Bson.substr_from 5 (template_prod n)) = Some n.
Proof.
  intros Hn. rewrite substr_template_prod.
  rewrite (toInt_of_magnitude _ n) by (apply magnitude_padStart_toString; lia).
  unfold Bson.INT32_MIN, Bson.INT32_MAX in *. case_decide; [done|lia].
Qed.

Lemma toInt_template_prod_overflow (n : Z) :
  Bson.INT32_MAX < n →
  Bson.toInt (Bson.substr_from 5 (template_prod n)) = None.
Proof.
  intros Hn. unfold Bson.INT32_MAX in Hn. rewrite substr_template_prod.
  rewrite (toInt_of_magnitude _ n) by (apply magnitude_padStart_toString; lia).
  unfold Bson.INT32_MIN, Bson.INT32_MAX. case_decide; [lia|done].
Qed.

Lemma template_prod_inj (n m : Z) :
  0 ≤ n → 0 ≤ m → template_prod n = template_prod m → n = m.
Proof.
  intros Hn Hm Heq.
  apply (f_equal (Bson.substr_from 5)) in Heq.
  rewrite !substr_template_prod in Heq.
  apply (f_equal Bson.magnitude) in Heq.
  rewrite !magnitude_padStart_toString in Heq by done. congruence.
Qed.

End identifiers.

(** ** The pipeline of getNextProductId *)

Section pipeline.

Lemma elem_of_product_docs (d : Product.t) (w : World) :
  d ∈ Db.product_docs w ↔ products w !! Product._id d = Some (Product.rest d).
Proof.
  unfold Db.product_docs. rewrite list_elem_of_fmap. split.
  - intros [[k v] [-> Hkv]]. simpl. by apply elem_of_map_to_list.
  - intros Hlk. exists (Product._id d, Product.rest d). split.
    + by destruct d.
    + by apply elem_of_map_to_list.
Qed.

Global Instance descending_total : Total Db.descending.
Proof. intros a b. unfold Db.descending. lia. Qed.

Global Instance descending_trans : Transitive Db.descending.
Proof. intros a b c. unfold Db.descending. lia. Qed.

(** After sorting in descending order and keeping one element, what is
    left is the greatest numeric part, if there is any. *)
Lemma stage_limit_sort_top (parts : list Z) :
  match Db.stage_limit (Db.stage_sort parts) with
  | [] => parts = []
  | top :: _ => top ∈ parts ∧ ∀ y, y ∈ parts → y ≤ top
  end.
Proof.
  unfold Db.stage_limit, Db.stage_sort.
  pose proof (merge_sort_Permutation Db.descending parts) as Hperm.
  pose proof (StronglySorted_merge_sort Db.descending parts) as Hsorted.
  destruct (merge_sort Db.descending parts) as [|top rest]; simpl.
  - by apply Permutation_nil_l in Hperm.
  - apply StronglySorted_cons in Hsorted as [Hall _].
    rewrite Forall_forall in Hall. split.
    + rewrite <- Hperm. apply list_elem_of_here.
    + intros y Hy. rewrite <- Hperm in Hy.
      apply elem_of_cons in Hy as [->|Hy]; [lia|]. by apply Hall.
Qed.

Lemma nextNum_greatest (parts : list Z) (m : Z) :
  (∀ y, y ∈ parts → y ≤ m) →
  (parts = [] ∧ m = 0 ∨ m ∈ parts) →
  nextNum (Db.stage_limit (Db.stage_sort parts)) = m + 1.
Proof.
  intros Hub Hm. pose proof (stage_limit_sort_top parts) as Htop.
  destruct (Db.stage_limit (Db.stage_sort parts)) as [|top rest]; simpl.
  - subst parts. destruct Hm as [[_ ->]|Hin]; [done|].
    by apply elem_of_nil in Hin.
  - destruct Htop as [Hin Hmax]. destruct Hm as [[-> _]|Hm].
    + by apply elem_of_nil in Hin.
    + specialize (Hub _ Hin). specialize (Hmax _ Hm). lia.
Qed.

(** The numeric parts projected from the matched documents. *)
Lemma stage_project_match (w : World) (parts : list Z) :
  Db.stage_project (Db.stage_match (Db.product_docs w)) = Some parts →
  ∀ v, v ∈ parts ↔
    ∃ id, is_Some (products w !! id) ∧ Bson.regex_prod id = true ∧
          Bson.toInt (Bson.substr_from 5 id) = Some v.
Proof.
  unfold Db.stage_project, Db.stage_match. intros Hproj v.
  apply mapM_Some in Hproj. split.
  - intros Hv. apply list_elem_of_lookup in Hv as [i Hi].
    destruct (Forall2_lookup_r _ _ _ _ _ Hproj Hi) as (d & Hd & Hnum).
    apply list_elem_of_lookup_2 in Hd. apply list_elem_of_filter in Hd as [Hre Hd].
    apply elem_of_product_docs in Hd.
    exists (Product._id d). by eauto.
  - intros (id & [p Hp] & Hre & Hnum).
    assert (Product.doc id p ∈
            filter (λ d, Bson.regex_prod (Product._id d) = true)
              (Db.product_docs w)) as Hd.
    { apply list_elem_of_filter. split; [done|]. by apply elem_of_product_docs. }
    apply list_elem_of_lookup in Hd as [i Hi].
    destruct (Forall2_lookup_l _ _ _ _ _ Hproj Hi) as (v' & Hv' & Hnum').
    change (Bson.toInt (Bson.substr_from 5 id) = Some v') in Hnum'.
    assert (v' = v) as -> by congruence.
    by apply list_elem_of_lookup_2 in Hv'.
Qed.

Lemma stage_project_is_Some (w : World) :
  (∀ id, is_Some (products w !! id) → Bson.regex_prod id = true →
         is_Some (Bson.toInt (Bson.substr_from 5 id))) →
  is_Some (Db.stage_project (Db.stage_match (Db.product_docs w))).
Proof.
  intros Hwf. unfold Db.stage_project, Db.stage_match.
  apply mapM_is_Some. apply Forall_forall. intros d Hd.
  apply list_elem_of_filter in Hd as [Hre Hd].
  apply elem_of_product_docs in Hd. simpl. unfold Db.numeric_part.
  apply Hwf; [by eexists|done].
Qed.

Lemma toInt_range (s : string) (v : Z) :
  Bson.toInt s = Some v → Bson.INT32_MIN ≤ v ≤ Bson.INT32_MAX.
Proof.
  unfold Bson.toInt.
  destruct (match s with
            | String "-"%char r => option_map Z.opp (Bson.magnitude r)
            | String "+"%char r => Bson.magnitude r
            | _ => Bson.magnitude s
            end) as [z|]; [|done].
  case_decide; [|done]. by intros [= <-].
Qed.

(** The next number is one more than a 32 bit integer at most. *)
Lemma nextNum_range (w : World) (result : list Z) :
  Db.products_aggregate w = Resolved result w →
  nextNum result ≤ Bson.INT32_MAX + 1.
Proof.
  unfold Db.products_aggregate.
  destruct (Db.stage_project (Db.stage_match (Db.product_docs w)))
    as [parts|] eqn:Hparts; [|done].
  intros [= <-]. pose proof (stage_limit_sort_top parts) as Htop.
  destruct (Db.stage_limit (Db.stage_sort parts)) as [|top rest]; simpl.
  - unfold Bson.INT32_MAX. lia.
  - destruct Htop as [Hin _].
    apply (stage_project_match w parts Hparts) in Hin as (id & _ & _ & Hnum).
    apply toInt_range in Hnum. lia.
Qed.

(** One stored identifier whose suffix is not a 32 bit integer makes
    the whole aggregation fail. *)
Lemma getNextProductId_rejected (w : World) (id : string) :
  is_Some (products w !! id) → Bson.regex_prod id = true →
  Bson.toInt (Bson.substr_from 5 id) = None →
  getNextProductId w = Rejected ConversionFailure w.
Proof.
  intros [p Hp] Hre Hnone.
  unfold getNextProductId, mbind, Async_bind, Db.products_aggregate.
  assert (Db.stage_project (Db.stage_match (Db.product_docs w)) = None) as ->;
    [|done].
  unfold Db.stage_project, Db.stage_match.
  apply mapM_None. apply Exists_exists. exists (Product.doc id p). split.
  - apply list_elem_of_filter. split; [done|]. by apply elem_of_product_docs.
  - done.
Qed.

(** When every identifier that starts with [prod_] converts and [m] is
    the greatest numeric part (or 0 with no such identifier), the next
    identifier is built from [m + 1]; the world is only read. *)
Lemma getNextProductId_greatest (w : World) (m : Z) :
  (∀ id, is_Some (products w !! id) → Bson.regex_prod id = true →
         ∃ v, Bson.toInt (Bson.substr_from 5 id) = Some v ∧ v ≤ m) →
  ((∀ id, is_Some (products w !! id) → Bson.regex_prod id = false) ∧ m = 0
   ∨ ∃ id, is_Some (products w !! id) ∧ Bson.regex_prod id = true ∧
           Bson.toInt (Bson.substr_from 5 id) = Some m) →
  getNextProductId w = Resolved (template_prod (m + 1)) w.
Proof.
  intros Hall Hm.
  destruct (stage_project_is_Some w) as [parts Hparts].
  { intros id Hid Hre. destruct (Hall id Hid Hre) as (v & -> & _). by eexists. }
  pose proof (stage_project_match w parts Hparts) as Hin.
  unfold getNextProductId, mbind, Async_bind, Db.products_aggregate.
  rewrite Hparts. unfold mret, Async_ret. f_equal. f_equal.
  apply nextNum_greatest.
  - intros y Hy. apply Hin in Hy as (id & Hid & Hre & Hnum).
    destruct (Hall id Hid Hre) as (v & Hv & Hle). congruence.
  - destruct Hm as [[Hnone ->]|(id & Hid & Hre & Hnum)].
    + left. split; [|done]. destruct parts as [|y parts]; [done|].
      destruct (proj1 (Hin y)) as (id & Hid & Hre & _); [apply list_elem_of_here|].
      rewrite (Hnone id Hid) in Hre. discriminate.
    + right. apply Hin. by eauto.
Qed.

End pipeline.

(** ** What the operations write *)

Section operations.

Lemma getNextProductId_reads (w : World) :
  match getNextProductId w with
  | Resolved _ w1 => w1 = w
  | Rejected _ w1 => w1 = w
  end.
Proof.
  unfold getNextProductId, mbind, Async_bind, Db.products_aggregate.
  by destruct (Db.stage_project _).
Qed.

(** A resolved [createProduct], read backwards. *)
Lemma createProduct_resolved (d : ProductFormData) (urls : list string)
    (w w' : World) (p : Product.t) :
  createProduct d urls w = Resolved p w' →
  getNextProductId w = Resolved (Product._id p) w ∧
  products w !! Product._id p = None ∧
  Product.rest p =
    Product.mk (Product._id p) (form_product_name d) (form_product_title d)
      (form_product_description d) urls (Z.of_nat (length urls))
      (form_subcategory_id d) (form_category_id d) active
      (clock w (ticks w)) (clock w (S (ticks w))) ∧
  products w' = <[Product._id p := Product.rest p]> (products w) ∧
  categories w' =
    alter (Category.push_inc_set (Product._id p) (clock w (S (S (ticks w)))))
      (form_category_id d) (categories w) ∧
  subcategories w' =
    alter (Subcategory.push_inc_set (Product._id p)
             (clock w (S (S (S (ticks w))))))
      (form_subcategory_id d) (subcategories w).
Proof.
  intros Hrun. unfold createProduct, mbind, Async_bind in Hrun.
  pose proof (getNextProductId_reads w) as Hreads.
  destruct (getNextProductId w) as [id w1|e w1]; [|done]. subst w1.
  unfold Db.products_insertOne, mbind, Async_bind, read, new_Date in Hrun.
  simpl in Hrun.
  destruct (products w !! id) eqn:Hfresh; [done|].
  simpl in Hrun. injection Hrun as <- <-. done.
Qed.

(** [createProduct] resolves as soon as the identifier can be computed
    and is not taken. *)
Lemma createProduct_resolves (d : ProductFormData) (urls : list string)
    (w : World) (id : string) :
  getNextProductId w = Resolved id w →
  products w !! id = None →
  ∃ p w', createProduct d urls w = Resolved p w' ∧ Product._id p = id.
Proof.
  intros Hid Hfresh. unfold createProduct, mbind, Async_bind. rewrite Hid.
  unfold Db.products_insertOne, mbind, Async_bind, read, new_Date. simpl.
  rewrite Hfresh. simpl. by eauto.
Qed.

Lemma createProduct_rejects (d : ProductFormData) (urls : list string)
    (w : World) (e : MongoError) :
  getNextProductId w = Rejected e w →
  createProduct d urls w = Rejected e w.
Proof.
  intros Hid. unfold createProduct, mbind, Async_bind. by rewrite Hid.
Qed.

(** [deleteProduct] on a stored product. *)
Lemma deleteProduct_existing (id : string) (w : World) (p : Product.fields) :
  products w !! id = Some p →
  deleteProduct id w =
    Resolved ()
      (mkWorld (delete id (products w))
         (alter (Category.pull_dec_set id (clock w (ticks w)))
            (Product.category_id p) (categories w))
         (alter (Subcategory.pull_dec_set id (clock w (S (ticks w))))
            (Product.subcategory_id p) (subcategories w))
         (clock w) (S (S (ticks w)))).
Proof.
  intros Hp. unfold deleteProduct, getProductById, Db.products_findOne.
  unfold mbind, Async_bind, read. rewrite Hp. reflexivity.
Qed.

Lemma deleteProduct_missing (id : string) (w : World) :
  products w !! id = None → deleteProduct id w = Resolved () w.
Proof.
  intros Hp. unfold deleteProduct, getProductById, Db.products_findOne.
  unfold mbind, Async_bind, read. rewrite Hp. reflexivity.
Qed.

(** [updateProduct] on a stored product whose [_id] the update does not
    try to change. *)
Lemma updateProduct_existing (id : string) (u : Product.partial) (w : World)
    (p : Product.fields) :
  products w !! id = Some p →
  (∀ id', Product.set__id u = Some id' → id' = id) →
  updateProduct id u w =
    Resolved ()
      (mkWorld
         (<[id := Product.apply_set
                    (Product.spread_updated_at u (clock w (ticks w))) p]>
            (products w))
         (categories w) (subcategories w) (clock w) (S (ticks w))).
Proof.
  intros Hp Hid. unfold updateProduct, Db.products_updateOne_set.
  unfold mbind, Async_bind, read, new_Date. simpl. rewrite Hp. simpl.
  destruct (Product.set__id u) as [id'|] eqn:Hu; [|done].
  rewrite (Hid id' eq_refl). by rewrite decide_True.
Qed.

(** An update that names another [_id] is refused and writes nothing. *)
Lemma updateProduct_immutable (id id' : string) (u : Product.partial)
    (w : World) (p : Product.fields) :
  products w !! id = Some p →
  Product.set__id u = Some id' → id' ≠ id →
  updateProduct id u w =
    Rejected ImmutableField
      (mkWorld (products w) (categories w) (subcategories w) (clock w)
         (S (ticks w))).
Proof.
  intros Hp Hu Hne. unfold updateProduct, Db.products_updateOne_set.
  unfold mbind, Async_bind, read, new_Date. simpl. rewrite Hp. simpl.
  rewrite Hu. by rewrite decide_False.
Qed.

Lemma updateProduct_missing (id : string) (u : Product.partial) (w : World) :
  products w !! id = None →
  updateProduct id u w =
    Resolved ()
      (mkWorld (products w) (categories w) (subcategories w) (clock w)
         (S (ticks w))).
Proof.
  intros Hp. unfold updateProduct, Db.products_updateOne_set.
  unfold mbind, Async_bind, read, new_Date. simpl. by rewrite Hp.
Qed.

End operations.

(** ** Parent aggregates under create and delete *)

Section parents.

Lemma occurrences_snoc_fresh (x : string) (l : list string) :
  x ∉ l → occurrences x (l ++ [x]) = 1%nat.
Proof.
  intros Hfresh. unfold occurrences. rewrite filter_app, length_app.
  assert (filter (λ y, y = x) l = []) as ->.
  { induction l as [|y l IH]; [done|].
    apply not_elem_of_cons in Hfresh as [Hne Hfresh].
    rewrite filter_cons_False by congruence. by apply IH. }
  rewrite filter_cons_True by done. reflexivity.
Qed.

Lemma not_elem_of_pull (x : string) (l : list string) :
  x ∉ filter (λ y, y ≠ x) l.
Proof. intros Hin. apply list_elem_of_filter in Hin as [Hne _]. done. Qed.

Lemma pull_absent (x : string) (l : list string) :
  x ∉ l → filter (λ y, y ≠ x) l = l.
Proof.
  intros Hfresh. induction l as [|y l IH]; [done|].
  apply not_elem_of_cons in Hfresh as [Hne Hfresh].
  rewrite filter_cons_True by done. f_equal. by apply IH.
Qed.

End parents.

(** C1. After a successful [createProduct], a category and a subcategory
    whose [product_count] was the length of their [product_ids], and which
    did not hold the new identifier, hold it exactly once at the end of
    their list, their count is one more, and it is again the length of the
    list. The identifier is the one [getNextProductId] allocated. *)
Theorem createProduct_appends_to_parents
    (d : ProductFormData) (urls : list string) (w w' : World) (p : Product.t)
    (c : Category.t) (sc : Subcategory.t) :
  createProduct d urls w = Resolved p w' →
  categories w !! form_category_id d = Some c →
  subcategories w !! form_subcategory_id d = Some sc →
  Category.product_count c = Z.of_nat (length (Category.product_ids c)) →
  Subcategory.product_count sc = Z.of_nat (length (Subcategory.product_ids sc)) →
  Product._id p ∉ Category.product_ids c →
  Product._id p ∉ Subcategory.product_ids sc →
  getNextProductId w = Resolved (Product._id p) w ∧
  ∃ c' sc',
    categories w' !! form_category_id d = Some c' ∧
    subcategories w' !! form_subcategory_id d = Some sc' ∧
    Category.product_ids c' = Category.product_ids c ++ [Product._id p] ∧
    Subcategory.product_ids sc' = Subcategory.product_ids sc ++ [Product._id p] ∧
    Category.product_count c' = Category.product_count c + 1 ∧
    Subcategory.product_count sc' = Subcategory.product_count sc + 1 ∧
    Category.product_count c' = Z.of_nat (length (Category.product_ids c')) ∧
    Subcategory.product_count sc' = Z.of_nat (length (Subcategory.product_ids sc')) ∧
    occurrences (Product._id p) (Category.product_ids c') = 1%nat ∧
    occurrences (Product._id p) (Subcategory.product_ids sc') = 1%nat.
Proof.
  intros Hrun Hc Hsc Hcount Hscount Hfresh Hsfresh.
  destruct (createProduct_resolved _ _ _ _ _ Hrun)
    as (Hid & _ & _ & _ & Hcats & Hsubs).
  split; [done|].
  exists (Category.push_inc_set (Product._id p) (clock w (S (S (ticks w)))) c),
    (Subcategory.push_inc_set (Product._id p) (clock w (S (S (S (ticks w))))) sc).
  rewrite Hcats, Hsubs, !lookup_alter_eq, Hc, Hsc. simpl.
  rewrite !length_app, Hcount, Hscount. simpl.
  repeat split; try done; try lia; by apply occurrences_snoc_fresh.
Qed.

Lemma createProduct_appends_to_parents_witness :
  getNextProductId shop1 = Resolved "prod_0002" shop1 ∧
  ∃ c' sc',
    categories shop2 !! "C1" = Some c' ∧
    subcategories shop2 !! "S1" = Some sc' ∧
    Category.product_ids c' = ["prod_0001"; "prod_0002"] ∧
    Subcategory.product_ids sc' = ["prod_0001"; "prod_0002"] ∧
    Category.product_count c' = 2 ∧
    Subcategory.product_count sc' = 2 ∧
    Category.product_count c' = Z.of_nat (length (Category.product_ids c')) ∧
    Subcategory.product_count sc' = Z.of_nat (length (Subcategory.product_ids sc')) ∧
    occurrences "prod_0002" (Category.product_ids c') = 1%nat ∧
    occurrences "prod_0002" (Subcategory.product_ids sc') = 1%nat.
Proof.
  apply (createProduct_appends_to_parents gadget ["u3"] shop1 shop2
           (Product.doc "prod_0002"
              (Product.mk "prod_0002" "Gadget" "A gadget" "Square" ["u3"] 1
                 "S1" "C1" active 1004 1005))
           (Category.mk "Tools" ["prod_0001"] 1 1002)
           (Subcategory.mk "Hand tools" "C1" ["prod_0001"] 1 1003)).
  - vm_compute. reflexivity.
  - vm_compute. reflexivity.
  - vm_compute. reflexivity.
  - reflexivity.
  - reflexivity.
  - simpl. intros Hin. apply list_elem_of_singleton in Hin. discriminate Hin.
  - simpl. intros Hin. apply list_elem_of_singleton in Hin. discriminate Hin.
Defined.

(** C4. [deleteProduct] on an identifier that no product has resolves and
    leaves the whole world as it was. On a stored product it removes the
    product record, then takes the identifier out of the product-ID list
    of the category the record names and lowers that category's count by
    one, then does the same on the subcategory; the identifier is in
    neither list afterwards, and no other parent document is written. *)
Theorem deleteProduct_removes_product_and_references (id : string) (w : World) :
  (products w !! id = None → deleteProduct id w = Resolved () w) ∧
  (∀ p, products w !! id = Some p →
     ∃ w', deleteProduct id w = Resolved () w' ∧
       products w' = delete id (products w) ∧
       products w' !! id = None ∧
       (∀ c, categories w !! Product.category_id p = Some c →
          ∃ c', categories w' !! Product.category_id p = Some c' ∧
            (Category.product_ids c'
               = filter (λ x, x ≠ id) (Category.product_ids c)) ∧
            (id ∉ Category.product_ids c') ∧
            Category.product_count c' = Category.product_count c - 1) ∧
       (∀ sc, subcategories w !! Product.subcategory_id p = Some sc →
          ∃ sc', subcategories w' !! Product.subcategory_id p = Some sc' ∧
            (Subcategory.product_ids sc'
               = filter (λ x, x ≠ id) (Subcategory.product_ids sc)) ∧
            (id ∉ Subcategory.product_ids sc') ∧
            Subcategory.product_count sc' = Subcategory.product_count sc - 1) ∧
       (∀ k, k ≠ Product.category_id p → categories w' !! k = categories w !! k) ∧
       (∀ k, k ≠ Product.subcategory_id p →
          subcategories w' !! k = subcategories w !! k)).
Proof.
  split; [apply deleteProduct_missing|].
  intros p Hp. eexists. split; [by apply deleteProduct_existing|]. simpl.
  split; [done|]. split; [apply lookup_delete_eq|].
  split; [|split; [|split]].
  - intros c Hc. rewrite lookup_alter_eq, Hc. simpl.
    eexists. split; [reflexivity|]. simpl.
    split; [done|]. split; [apply not_elem_of_pull|lia].
  - intros sc Hsc. rewrite lookup_alter_eq, Hsc. simpl.
    eexists. split; [reflexivity|]. simpl.
    split; [done|]. split; [apply not_elem_of_pull|lia].
  - intros k Hk. by rewrite lookup_alter_ne.
  - intros k Hk. by rewrite lookup_alter_ne.
Qed.

Lemma deleteProduct_removes_product_and_references_witness :
  deleteProduct "prod_0404" shop2 = Resolved () shop2 ∧
  ∃ w', deleteProduct "prod_0001" shop2 = Resolved () w' ∧
    products w' !! "prod_0001" = None ∧
    (∃ c', categories w' !! "C1" = Some c' ∧
       Category.product_ids c' = ["prod_0002"] ∧ Category.product_count c' = 1) ∧
    (∃ sc', subcategories w' !! "S1" = Some sc' ∧
       Subcategory.product_ids sc' = ["prod_0002"] ∧
       Subcategory.product_count sc' = 1).
Proof.
  split.
  - apply (proj1 (deleteProduct_removes_product_and_references "prod_0404" shop2)).
    vm_compute. reflexivity.
  - destruct (proj2 (deleteProduct_removes_product_and_references "prod_0001" shop2)
                (Product.mk "prod_0001" "Widget" "A widget" "Round" ["u1"; "u2"] 2
                   "S1" "C1" active 1000 1001))
      as (w' & Hrun & _ & Hgone & Hcat & Hsub & _).
    { vm_compute. reflexivity. }
    exists w'. split; [exact Hrun|]. split; [exact Hgone|]. split.
    + destruct (Hcat (Category.mk "Tools" ["prod_0001"; "prod_0002"] 2 1006))
        as (c' & Hc' & Hids & _ & Hcount).
      { vm_compute. reflexivity. }
      exists c'. split; [exact Hc'|]. split; [exact Hids|exact Hcount].
    + destruct (Hsub (Subcategory.mk "Hand tools" "C1" ["prod_0001"; "prod_0002"] 2 1007))
        as (sc' & Hsc' & Hids & _ & Hcount).
      { vm_compute. reflexivity. }
      exists sc'. split; [exact Hsc'|]. split; [exact Hids|exact Hcount].
Defined.

(** C10, as the code has it. Deleting a stored product lowers the count
    of the category and of the subcategory its record names by exactly
    one, whether or not the
    identifier occurs in their product-ID list. When it does not occur the
    list stays as it is, so a count that did not exceed the length of the
    list (in particular one that was equal to it) ends strictly below it. *)
Theorem deleteProduct_decrements_unconditionally
    (id : string) (w : World) (p : Product.fields) :
  products w !! id = Some p →
  ∃ w', deleteProduct id w = Resolved () w' ∧
    (∀ c, categories w !! Product.category_id p = Some c →
       ∃ c', categories w' !! Product.category_id p = Some c' ∧
         Category.product_count c' = Category.product_count c - 1 ∧
         (id ∉ Category.product_ids c →
            Category.product_ids c' = Category.product_ids c ∧
            (Category.product_count c ≤ Z.of_nat (length (Category.product_ids c)) →
             Category.product_count c'
               < Z.of_nat (length (Category.product_ids c'))))) ∧
    (∀ sc, subcategories w !! Product.subcategory_id p = Some sc →
       ∃ sc', subcategories w' !! Product.subcategory_id p = Some sc' ∧
         Subcategory.product_count sc' = Subcategory.product_count sc - 1 ∧
         (id ∉ Subcategory.product_ids sc →
            Subcategory.product_ids sc' = Subcategory.product_ids sc ∧
            (Subcategory.product_count sc
               ≤ Z.of_nat (length (Subcategory.product_ids sc)) →
             Subcategory.product_count sc'
               < Z.of_nat (length (Subcategory.product_ids sc'))))).
Proof.
  intros Hp. eexists. split; [by apply deleteProduct_existing|]. simpl. split.
  - intros c Hc. rewrite lookup_alter_eq, Hc. simpl.
    eexists. split; [reflexivity|]. simpl.
    split; [lia|]. intros Habsent.
    rewrite pull_absent by done. split; [done|lia].
  - intros sc Hsc. rewrite lookup_alter_eq, Hsc. simpl.
    eexists. split; [reflexivity|]. simpl.
    split; [lia|]. intros Habsent.
    rewrite pull_absent by done. split; [done|lia].
Qed.

Lemma deleteProduct_decrements_unconditionally_witness :
  ∃ w' c', deleteProduct "prod_0001" drifted = Resolved () w' ∧
    categories w' !! "C1" = Some c' ∧
    Category.product_ids c' = ["prod_0007"] ∧
    Category.product_count c' = 0 ∧
    Category.product_count c' < Z.of_nat (length (Category.product_ids c')).
Proof.
  destruct (deleteProduct_decrements_unconditionally "prod_0001" drifted
              (Product.mk "prod_0001" "Widget" "A widget" "Round" ["u1"; "u2"] 2
                 "S1" "C1" active 1000 1001))
    as (w' & Hrun & Hcat & _).
  { vm_compute. reflexivity. }
  destruct (Hcat (Category.mk "Tools" ["prod_0007"] 1 0))
    as (c' & Hc' & Hcount & Hdrift).
  { vm_compute. reflexivity. }
  destruct Hdrift as [Hids Hbelow].
  { simpl. intros Hin. apply list_elem_of_singleton in Hin. discriminate Hin. }
  exists w', c'. split; [exact Hrun|]. split; [exact Hc'|].
  split; [exact Hids|]. split; [exact Hcount|].
  apply Hbelow. simpl. lia.
Defined.

(** C10 as stated fails for a parent whose count exceeded the length of
    its list: the category of [overcounted] does not list [prod_0001],
    the count drops from 5 to 4 and is still above the length 1. *)
Lemma deleteProduct_count_can_stay_above_length :
  occurrences "prod_0001" ["prod_0007"] = 0%nat ∧
  (Category.product_count <$> categories overcounted !! "C1") = Some 5 ∧
  ∃ w' c', deleteProduct "prod_0001" overcounted = Resolved () w' ∧
    categories w' !! "C1" = Some c' ∧
    Category.product_ids c' = ["prod_0007"] ∧
    Category.product_count c' = 4 ∧
    Z.of_nat (length (Category.product_ids c')) = 1.
Proof.
  split; [reflexivity|]. split; [vm_compute; reflexivity|].
  eexists. eexists. split; [vm_compute; reflexivity|].
  split; [vm_compute; reflexivity|]. simpl. done.
Qed.

(** ** updateProduct *)

Section update.

(** On a stored product [updateProduct] either writes the merged record
    or, when the update names another [_id], is refused. *)
Lemma updateProduct_cases (id : string) (u : Product.partial) (w : World)
    (p : Product.fields) :
  products w !! id = Some p →
  ((∀ id', Product.set__id u = Some id' → id' = id) ∧
   updateProduct id u w =
     Resolved ()
       (mkWorld
          (<[id := Product.apply_set
                     (Product.spread_updated_at u (clock w (ticks w))) p]>
             (products w))
          (categories w) (subcategories w) (clock w) (S (ticks w))))
  ∨ ((∃ id', Product.set__id u = Some id' ∧ id' ≠ id) ∧
     updateProduct id u w =
       Rejected ImmutableField
         (mkWorld (products w) (categories w) (subcategories w) (clock w)
            (S (ticks w)))).
Proof.
  intros Hp. destruct (Product.set__id u) as [id'|] eqn:Hu.
  - destruct (decide (id' = id)) as [->|Hne].
    + left. split; [congruence|]. apply updateProduct_existing; [done|congruence].
    + right. split; [by eauto|]. by eapply updateProduct_immutable.
  - left. split; [congruence|]. apply updateProduct_existing; [done|congruence].
Qed.

End update.

(** C5, as the code has it. On a stored product, [updateProduct] never
    writes a category or subcategory document, whatever the partial map
    holds, also when it changes [category_id] or [subcategory_id]. Unless
    the map names another [_id] (then the store refuses the update), it
    resolves, every supplied field replaces the stored one, every other
    field stays, and [updated_at] becomes the current instant even when the
    map supplies one. *)
Theorem updateProduct_merges_and_spares_parents
    (id : string) (u : Product.partial) (w : World) (p : Product.fields) :
  products w !! id = Some p →
  categories (world_of (updateProduct id u w)) = categories w ∧
  subcategories (world_of (updateProduct id u w)) = subcategories w ∧
  ((∀ id', Product.set__id u = Some id' → id' = id) →
   ∃ w', updateProduct id u w = Resolved () w' ∧
     products w' =
       <[id := Product.mk
           (default (Product.product_id p) (Product.set_product_id u))
           (default (Product.product_name p) (Product.set_product_name u))
           (default (Product.product_title p) (Product.set_product_title u))
           (default (Product.product_description p)
              (Product.set_product_description u))
           (default (Product.image_urls p) (Product.set_image_urls u))
           (default (Product.image_count p) (Product.set_image_count u))
           (default (Product.subcategory_id p) (Product.set_subcategory_id u))
           (default (Product.category_id p) (Product.set_category_id u))
           (default (Product.status p) (Product.set_status u))
           (default (Product.created_at p) (Product.set_created_at u))
           (clock w (ticks w))]> (products w)).
Proof.
  intros Hp.
  destruct (updateProduct_cases id u w p Hp) as [[Hsame ->]|[Hother ->]]; simpl.
  - split; [done|]. split; [done|]. intros _. by eexists.
  - split; [done|]. split; [done|]. intros Hsame.
    destruct Hother as (id' & Hu & Hne). by destruct (Hne (Hsame id' Hu)).
Qed.

Lemma updateProduct_merges_and_spares_parents_witness :
  categories (world_of (updateProduct "prod_0001" move_to_C2 shop1))
    = categories shop1 ∧
  subcategories (world_of (updateProduct "prod_0001" move_to_C2 shop1))
    = subcategories shop1 ∧
  ∃ w', updateProduct "prod_0001" move_to_C2 shop1 = Resolved () w' ∧
    products w' =
      {[ "prod_0001" :=
           Product.mk "prod_0001" "Widget" "A widget" "Round" ["u1"; "u2"] 2
             "S1" "C2" active 1000 1004 ]}.
Proof.
  destruct (updateProduct_merges_and_spares_parents "prod_0001" move_to_C2 shop1
              (Product.mk "prod_0001" "Widget" "A widget" "Round" ["u1"; "u2"] 2
                 "S1" "C1" active 1000 1001))
    as (Hcat & Hsub & Hmerge).
  { vm_compute. reflexivity. }
  split; [exact Hcat|]. split; [exact Hsub|].
  destruct Hmerge as (w' & Hrun & Hproducts).
  { intros id' Hid'. discriminate Hid'. }
  exists w'. split; [exact Hrun|]. rewrite Hproducts. vm_compute. reflexivity.
Defined.

(** C5 as stated fails: a partial map that names another [_id] is refused,
    nothing is merged and [updated_at] keeps its old value. *)
Lemma updateProduct_other_id_is_refused :
  (Product.updated_at <$> products shop1 !! "prod_0001") = Some 1001 ∧
  clock shop1 (ticks shop1) = 1004 ∧
  ∃ w', updateProduct "prod_0001" rename shop1 = Rejected ImmutableField w' ∧
    (Product.updated_at <$> products w' !! "prod_0001") = Some 1001.
Proof.
  split; [vm_compute; reflexivity|]. split; [vm_compute; reflexivity|].
  eexists. split; [vm_compute; reflexivity|]. vm_compute. reflexivity.
Qed.

(** C6, as the code has it. [updateProduct] on a stored product keeps the
    document under its [_id] and adds or removes no document. Its
    [product_id] and [created_at] stay as they are when the partial map
    does not supply them; a supplied [product_id] or [created_at] is
    written like any other field. *)
Theorem updateProduct_keeps_id_and_unsupplied_fields
    (id : string) (u : Product.partial) (w : World) (p : Product.fields) :
  products w !! id = Some p →
  ∃ p', products (world_of (updateProduct id u w)) !! id = Some p' ∧
    (∀ k, is_Some (products (world_of (updateProduct id u w)) !! k)
          ↔ is_Some (products w !! k)) ∧
    (Product.set_product_id u = None → Product.product_id p' = Product.product_id p) ∧
    (Product.set_created_at u = None → Product.created_at p' = Product.created_at p) ∧
    (∀ w', updateProduct id u w = Resolved () w' →
       Product.product_id p'
         = default (Product.product_id p) (Product.set_product_id u) ∧
       Product.created_at p'
         = default (Product.created_at p) (Product.set_created_at u)).
Proof.
  intros Hp.
  destruct (updateProduct_cases id u w p Hp) as [[Hsame ->]|[Hother ->]]; simpl.
  - eexists. split; [apply lookup_insert_eq|]. simpl. split; [|split; [|split]].
    + intros k. destruct (decide (k = id)) as [->|Hne].
      * rewrite lookup_insert_eq, Hp. split; by eauto.
      * by rewrite lookup_insert_ne.
    + by intros ->.
    + by intros ->.
    + done.
  - exists p. split; [done|]. split; [done|]. split; [done|]. split; [done|].
    intros w' Hrun. discriminate Hrun.
Qed.

Lemma updateProduct_keeps_id_and_unsupplied_fields_witness :
  ∃ p', products (world_of (updateProduct "prod_0001" move_to_C2 shop1))
          !! "prod_0001" = Some p' ∧
    Product.product_id p' = "prod_0001" ∧ Product.created_at p' = 1000.
Proof.
  destruct (updateProduct_keeps_id_and_unsupplied_fields "prod_0001" move_to_C2
              shop1
              (Product.mk "prod_0001" "Widget" "A widget" "Round" ["u1"; "u2"] 2
                 "S1" "C1" active 1000 1001))
    as (p' & Hp' & _ & Hpid & Hcreated & _).
  { vm_compute. reflexivity. }
  exists p'. split; [exact Hp'|]. split.
  - apply Hpid. reflexivity.
  - apply Hcreated. reflexivity.
Defined.

(** C6 as stated fails: a partial map that supplies [product_id] and
    [created_at] rewrites both. *)
Lemma updateProduct_rewrites_product_id_and_created_at :
  (Product.product_id <$> products shop1 !! "prod_0001") = Some "prod_0001" ∧
  (Product.created_at <$> products shop1 !! "prod_0001") = Some 1000 ∧
  ∃ w', updateProduct "prod_0001" backdate shop1 = Resolved () w' ∧
    (Product.product_id <$> products w' !! "prod_0001") = Some "prod_9999" ∧
    (Product.created_at <$> products w' !! "prod_0001") = Some 0.
Proof.
  split; [vm_compute; reflexivity|]. split; [vm_compute; reflexivity|].
  eexists. split; [vm_compute; reflexivity|].
  split; vm_compute; reflexivity.
Qed.

(** C7, as the code has it. The product [createProduct] stores and returns
    has the supplied image URLs and an [image_count] equal to their number.
    [updateProduct] writes [image_urls] and [image_count] independently,
    each only when supplied: the equality survives an update that supplies
    neither, or that supplies an [image_count] equal to the length of the
    image URLs the product ends with. *)
Theorem image_count_at_create_and_update :
  (∀ d urls w p w', createProduct d urls w = Resolved p w' →
     products w' !! Product._id p = Some (Product.rest p) ∧
     Product.image_urls (Product.rest p) = urls ∧
     Product.image_count (Product.rest p)
       = Z.of_nat (length (Product.image_urls (Product.rest p)))) ∧
  (∀ id u w p w', products w !! id = Some p →
     updateProduct id u w = Resolved () w' →
     ∃ p', products w' !! id = Some p' ∧
       Product.image_urls p'
         = default (Product.image_urls p) (Product.set_image_urls u) ∧
       Product.image_count p'
         = default (Product.image_count p) (Product.set_image_count u) ∧
       (Product.image_count p = Z.of_nat (length (Product.image_urls p)) →
        (Product.set_image_urls u = None ∧ Product.set_image_count u = None)
        ∨ Product.set_image_count u
            = Some (Z.of_nat (length (default (Product.image_urls p)
                                        (Product.set_image_urls u)))) →
        Product.image_count p' = Z.of_nat (length (Product.image_urls p')))).
Proof.
  split.
  - intros d urls w p w' Hrun.
    destruct (createProduct_resolved _ _ _ _ _ Hrun)
      as (_ & _ & Hrest & Hproducts & _).
    rewrite Hproducts, lookup_insert_eq. split; [done|].
    rewrite Hrest. simpl. done.
  - intros id u w p w' Hp Hrun.
    destruct (updateProduct_cases id u w p Hp) as [[_ Hok]|[_ Hrefused]];
      [|congruence].
    rewrite Hok in Hrun. injection Hrun as <-. simpl.
    eexists. split; [apply lookup_insert_eq|]. simpl.
    split; [done|]. split; [done|].
    intros Hinv [[-> ->]| ->]; simpl; done.
Qed.

Lemma image_count_at_create_and_update_witness :
  (∃ p w', createProduct widget ["u1"; "u2"] shop = Resolved p w' ∧
     Product.image_count (Product.rest p) = 2) ∧
  (∃ w' p', updateProduct "prod_0001" images_and_count shop1 = Resolved () w' ∧
     products w' !! "prod_0001" = Some p' ∧
     Product.image_urls p' = ["u9"] ∧
     Product.image_count p' = Z.of_nat (length (Product.image_urls p'))).
Proof.
  split.
  - exists (Product.doc "prod_0001"
              (Product.mk "prod_0001" "Widget" "A widget" "Round" ["u1"; "u2"] 2
                 "S1" "C1" active 1000 1001)), shop1.
    split; [vm_compute; reflexivity|].
    destruct (proj1 image_count_at_create_and_update widget ["u1"; "u2"] shop
                (Product.doc "prod_0001"
                   (Product.mk "prod_0001" "Widget" "A widget" "Round"
                      ["u1"; "u2"] 2 "S1" "C1" active 1000 1001)) shop1)
      as (_ & _ & Hcount).
    { vm_compute. reflexivity. }
    exact Hcount.
  - exists (world_of (updateProduct "prod_0001" images_and_count shop1)).
    destruct (proj2 image_count_at_create_and_update "prod_0001" images_and_count
                shop1
                (Product.mk "prod_0001" "Widget" "A widget" "Round" ["u1"; "u2"]
                   2 "S1" "C1" active 1000 1001)
                (world_of (updateProduct "prod_0001" images_and_count shop1)))
      as (p' & Hp' & Hurls & _ & Hinv).
    { vm_compute. reflexivity. }
    { vm_compute. reflexivity. }
    exists p'. split; [vm_compute; reflexivity|]. split; [exact Hp'|].
    split; [exact Hurls|].
    apply Hinv; [reflexivity|]. right. reflexivity.
Defined.

(** C7 as stated fails: an update that changes the images and supplies no
    [image_count] leaves the old count next to the new list. *)
Lemma updateProduct_images_without_count :
  ∃ w' p', updateProduct "prod_0001" only_images shop1 = Resolved () w' ∧
    products w' !! "prod_0001" = Some p' ∧
    Product.image_urls p' = ["u9"] ∧
    Product.image_count p' = 2 ∧
    Z.of_nat (length (Product.image_urls p')) = 1.
Proof.
  eexists. eexists. split; [vm_compute; reflexivity|].
  split; [vm_compute; reflexivity|]. simpl. done.
Qed.

(** ** getAllProducts *)

Section listing.

Global Instance newer_first_total : Total Db.newer_first.
Proof. intros a b. unfold Db.newer_first. lia. Qed.

Global Instance newer_first_trans : Transitive Db.newer_first.
Proof. intros a b c. unfold Db.newer_first. lia. Qed.

End listing.

(** C8. [getAllProducts] resolves with all product records of the store,
    each once, ordered by [created_at] from newest to oldest, and leaves
    the world as it was. *)
Theorem getAllProducts_newest_first (w : World) :
  ∃ ps, getAllProducts w = Resolved ps w ∧
    ps ≡ₚ Db.product_docs w ∧
    (∀ p, p ∈ ps ↔ products w !! Product._id p = Some (Product.rest p)) ∧
    NoDup ps ∧
    length ps = size (products w) ∧
    StronglySorted Db.newer_first ps ∧
    (∀ i j a b, ps !! i = Some a → ps !! j = Some b → (i < j)%nat →
       Product.created_at (Product.rest b) ≤ Product.created_at (Product.rest a)).
Proof.
  exists (merge_sort Db.newer_first (Db.product_docs w)).
  pose proof (merge_sort_Permutation Db.newer_first (Db.product_docs w)) as Hperm.
  pose proof (StronglySorted_merge_sort Db.newer_first (Db.product_docs w))
    as Hsorted.
  split; [done|]. split; [done|]. split; [|split; [|split; [|split]]].
  - intros p. rewrite Hperm. apply elem_of_product_docs.
  - rewrite Hperm. unfold Db.product_docs.
    apply NoDup_fmap_2; [|apply NoDup_map_to_list].
    intros [k1 v1] [k2 v2] Heq. simpl in Heq. congruence.
  - rewrite Hperm. unfold Db.product_docs.
    rewrite length_fmap. apply length_map_to_list.
  - done.
  - clear Hperm. intros i j a b Ha Hb Hij.
    revert i j a b Ha Hb Hij.
    induction Hsorted as [|x l Hl IH Hall]; intros i j a b Ha Hb Hij; [done|].
    destruct j as [|j]; [lia|]. simpl in Hb.
    destruct i as [|i]; simpl in Ha.
    + injection Ha as ->. rewrite Forall_forall in Hall.
      apply (Hall b). by eapply list_elem_of_lookup_2.
    + apply (IH i j); [done|done|lia].
Qed.

(** C9. For every [n] above 9999 the identifier built from [n] is [prod_]
    followed by the whole decimal numeral of [n]: it has more than four
    digits, reads back as [n], and is what [getNextProductId] resolves with
    whenever the next number it computed is [n]. Such an [n] is at most
    2147483648, so its numeral is the plain decimal one. *)
Theorem getNextProductId_widens_beyond_four_digits (n : Z) :
  9999 < n →
  template_prod n = "prod_" +:+ Js.toString n ∧
  (4 < String.length (Bson.substr_from 5 (template_prod n)))%nat ∧
  Bson.magnitude (Bson.substr_from 5 (template_prod n)) = Some n ∧
  (∀ w result, Db.products_aggregate w = Resolved result w →
     nextNum result = n →
     getNextProductId w = Resolved ("prod_" +:+ Js.toString n) w ∧
     n ≤ 2147483648).
Proof.
  intros Hn. pose proof (length_toString_wide n Hn) as Hlen.
  assert (template_prod n = "prod_" +:+ Js.toString n) as Hwide.
  { unfold template_prod, Js.padStart.
    replace (4 - String.length (Js.toString n))%nat with 0%nat by lia. done. }
  split; [done|]. split; [|split].
  - rewrite Hwide.
    change (Bson.substr_from 5 ("prod_" +:+ Js.toString n)) with (Js.toString n).
    lia.
  - rewrite substr_template_prod. apply magnitude_padStart_toString. lia.
  - intros w result Hagg Hnext. split.
    + unfold getNextProductId, mbind, Async_bind. rewrite Hagg.
      unfold mret, Async_ret. by rewrite Hnext, Hwide.
    + pose proof (nextNum_range w result Hagg) as Hrange.
      unfold Bson.INT32_MAX in Hrange. lia.
Qed.

Lemma getNextProductId_widens_beyond_four_digits_witness :
  template_prod 10000 = "prod_10000" ∧
  getNextProductId crowded = Resolved "prod_10000" crowded.
Proof.
  destruct (getNextProductId_widens_beyond_four_digits 10000)
    as (Htemplate & _ & _ & Hnext); [lia|].
  split; [exact Htemplate|].
  destruct (Hnext crowded [9999]) as [Hid _].
  { vm_compute. reflexivity. }
  { reflexivity. }
  exact Hid.
Defined.

(** ** The allocation rule against the pipeline *)

Section allocation.

Lemma digit_of_nonneg (c : ascii) (d : Z) : Bson.digit_of c = Some d → 0 ≤ d.
Proof.
  unfold Bson.digit_of. destruct (Ascii.is_nat c); [|done].
  intros [= <-]. lia.
Qed.

Lemma magnitude_from_nonneg (s : string) :
  ∀ acc v, 0 ≤ acc → Bson.magnitude_from acc s = Some v → 0 ≤ v.
Proof.
  induction s as [|c s IH]; intros acc v Hacc Hmag; simpl in Hmag.
  - congruence.
  - destruct (Bson.digit_of c) as [d|] eqn:Hd; [|done].
    apply digit_of_nonneg in Hd. apply (IH (10 * acc + d)); [lia|done].
Qed.

Lemma magnitude_nonneg (s : string) (v : Z) : Bson.magnitude s = Some v → 0 ≤ v.
Proof.
  unfold Bson.magnitude. destruct s; [done|].
  by apply magnitude_from_nonneg.
Qed.

Lemma toInt_of_small_magnitude (s : string) (v : Z) :
  Bson.magnitude s = Some v → v ≤ Bson.INT32_MAX → Bson.toInt s = Some v.
Proof.
  intros Hmag Hmax. pose proof (magnitude_nonneg s v Hmag) as Hpos.
  rewrite (toInt_of_magnitude s v Hmag).
  unfold Bson.INT32_MIN, Bson.INT32_MAX in *. case_decide; [done|lia].
Qed.

Lemma foldr_max_upper (l : list Z) (v : Z) : v ∈ l → v ≤ foldr Z.max 0 l.
Proof.
  induction l as [|x l IH]; intros Hin; [by apply elem_of_nil in Hin|].
  simpl. apply elem_of_cons in Hin as [->|Hin]; [lia|].
  specialize (IH Hin). lia.
Qed.

Lemma foldr_max_attained (l : list Z) :
  l ≠ [] → (∀ v, v ∈ l → 0 ≤ v) → foldr Z.max 0 l ∈ l.
Proof.
  induction l as [|x l IH]; intros Hne Hpos; [done|]. simpl.
  destruct l as [|y l].
  - simpl. assert (0 ≤ x) by (apply Hpos; apply list_elem_of_here).
    replace (x `max` 0) with x by lia. apply list_elem_of_here.
  - assert (foldr Z.max 0 (y :: l) ∈ y :: l) as Hin.
    { apply IH; [done|]. intros v Hv. apply Hpos. by apply list_elem_of_further. }
    destruct (Z.max_spec x (foldr Z.max 0 (y :: l))) as [[_ ->]|[_ ->]].
    + by apply list_elem_of_further.
    + apply list_elem_of_here.
Qed.

Lemma elem_of_stored_ids (id : string) (w : World) :
  id ∈ stored_ids w ↔ is_Some (products w !! id).
Proof.
  unfold stored_ids. rewrite list_elem_of_fmap. split.
  - intros [[k v] [-> Hkv]]. apply elem_of_map_to_list in Hkv. by eexists.
  - intros [v Hv]. exists (id, v). split; [done|]. by apply elem_of_map_to_list.
Qed.

End allocation.

(** C3, as the code has it. In a store where every identifier that starts
    with [prod_] goes on with one or more decimal digits whose value is at
    most 2147483647, [getNextProductId] resolves with the identifier of the
    rule: the greatest numeric suffix among the stored identifiers of the
    form [prod_<digits>] (0 without any), plus one, zero-padded to four
    digits behind [prod_]. The result is computed from the stored
    identifiers alone and the world is left as it was. *)
Theorem getNextProductId_scans_stored_ids (w : World) :
  (∀ id, is_Some (products w !! id) → Bson.regex_prod id = true →
     ∃ v, Bson.magnitude (Bson.substr_from 5 id) = Some v ∧ v ≤ Bson.INT32_MAX) →
  getNextProductId w = Resolved (next_id_in_words (stored_ids w)) w.
Proof.
  intros Hwf. unfold next_id_in_words.
  set (parts := omap prod_digits_suffix (stored_ids w)).
  assert (∀ v, v ∈ parts ↔
            ∃ id, is_Some (products w !! id) ∧ Bson.regex_prod id = true ∧
                  Bson.magnitude (Bson.substr_from 5 id) = Some v) as Hparts.
  { intros v. unfold parts. rewrite list_elem_of_omap. split.
    - intros (id & Hid & Hsuffix). apply elem_of_stored_ids in Hid.
      unfold prod_digits_suffix in Hsuffix.
      destruct (Bson.regex_prod id) eqn:Hre; [|done]. by eauto.
    - intros (id & Hid & Hre & Hmag). exists id. split.
      + by apply elem_of_stored_ids.
      + unfold prod_digits_suffix. by rewrite Hre. }
  apply getNextProductId_greatest.
  - intros id Hid Hre. destruct (Hwf id Hid Hre) as (v & Hmag & Hmax).
    exists v. split; [by apply toInt_of_small_magnitude|].
    apply foldr_max_upper. apply Hparts. by eauto.
  - destruct parts as [|v0 rest] eqn:Hlist.
    + left. split; [|done]. intros id Hid.
      destruct (Bson.regex_prod id) eqn:Hre; [|done].
      destruct (Hwf id Hid Hre) as (v & Hmag & _).
      assert (v ∈ @nil Z) as Hin by (apply Hparts; eauto).
      by apply elem_of_nil in Hin.
    + right.
      assert (foldr Z.max 0 (v0 :: rest) ∈ v0 :: rest) as Hin.
      { apply foldr_max_attained; [done|]. intros v Hv.
        apply Hparts in Hv as (id & _ & _ & Hmag). by eapply magnitude_nonneg. }
      apply Hparts in Hin as (id & Hid & Hre & Hmag).
      exists id. split; [done|]. split; [done|].
      destruct (Hwf id Hid Hre) as (v & Hmag' & Hmax).
      apply toInt_of_small_magnitude; [done|]. congruence.
Qed.

Lemma getNextProductId_scans_stored_ids_witness :
  getNextProductId shop2 = Resolved "prod_0003" shop2.
Proof.
  apply (getNextProductId_scans_stored_ids shop2).
  intros id [p Hp] Hre.
  destruct (decide (id = "prod_0001")) as [->|Hne1].
  { exists 1. split; [reflexivity|]. unfold Bson.INT32_MAX. lia. }
  destruct (decide (id = "prod_0002")) as [->|Hne2].
  { exists 2. split; [reflexivity|]. unfold Bson.INT32_MAX. lia. }
  exfalso.
  assert (products shop2 =
            <["prod_0002" := Product.mk "prod_0002" "Gadget" "A gadget" "Square"
                               ["u3"] 1 "S1" "C1" active 1004 1005]>
              (<["prod_0001" := Product.mk "prod_0001" "Widget" "A widget"
                                  "Round" ["u1"; "u2"] 2 "S1" "C1" active
                                  1000 1001]> ∅)) as Hshop.
  { vm_compute. reflexivity. }
  rewrite Hshop in Hp.
  rewrite lookup_insert_ne in Hp by congruence.
  rewrite lookup_insert_ne in Hp by congruence.
  rewrite lookup_empty in Hp. discriminate Hp.
Defined.

(** C3 as stated fails on stores holding an identifier that starts with
    [prod_] and does not go on with the digits of a 32 bit integer. The
    [$match] stage selects on the prefix alone, so [prod_abc] makes the
    aggregation fail and [prod_-5] is counted with the numeric part -5,
    while the rule skips both and gives [prod_0001]; and the suffix of
    [prod_2147483648] does not convert, while the rule gives
    [prod_2147483649]. *)
Lemma getNextProductId_counts_every_prod_prefix :
  next_id_in_words (stored_ids (stray "prod_abc")) = "prod_0001" ∧
  getNextProductId (stray "prod_abc")
    = Rejected ConversionFailure (stray "prod_abc") ∧
  next_id_in_words (stored_ids (stray "prod_-5")) = "prod_0001" ∧
  getNextProductId (stray "prod_-5") = Resolved "prod_00-4" (stray "prod_-5") ∧
  next_id_in_words (stored_ids (stray "prod_2147483648")) = "prod_2147483649" ∧
  getNextProductId (stray "prod_2147483648")
    = Rejected ConversionFailure (stray "prod_2147483648").
Proof. repeat split; vm_compute; reflexivity. Qed.

(** ** Serial creation *)

Section serial.

Lemma allocated_through_empty (w : World) :
  products w = ∅ → allocated_through 0 w.
Proof.
  intros Hempty id. rewrite Hempty, lookup_empty. split.
  - intros [p Hp]. discriminate Hp.
  - intros (i & Hi & _). lia.
Qed.

Lemma allocated_next (k : Z) (w : World) :
  allocated_through k w → 0 ≤ k ≤ Bson.INT32_MAX →
  getNextProductId w = Resolved (template_prod (k + 1)) w.
Proof.
  intros Halloc Hk. apply getNextProductId_greatest.
  - intros id Hid _. apply Halloc in Hid as (i & Hi & ->).
    exists i. split; [apply toInt_template_prod; lia|lia].
  - destruct (decide (k = 0)) as [->|Hne].
    + left. split; [|done]. intros id Hid.
      apply Halloc in Hid as (i & Hi & _). lia.
    + right. exists (template_prod k). split; [|split].
      * apply Halloc. exists k. split; [lia|done].
      * apply regex_template_prod.
      * apply toInt_template_prod. lia.
Qed.

Lemma allocated_fresh (k : Z) (w : World) :
  allocated_through k w → 0 ≤ k → products w !! template_prod (k + 1) = None.
Proof.
  intros Halloc Hk. apply eq_None_not_Some. intros Hsome.
  apply Halloc in Hsome as (i & Hi & Heq).
  apply template_prod_inj in Heq; lia.
Qed.

(** Once [prod_2147483648] is stored its suffix no longer converts. *)
Lemma allocated_overflow (k : Z) (w : World) :
  allocated_through k w → Bson.INT32_MAX < k →
  getNextProductId w = Rejected ConversionFailure w.
Proof.
  intros Halloc Hk. apply (getNextProductId_rejected w (template_prod k)).
  - apply Halloc. exists k. unfold Bson.INT32_MAX in Hk. split; [lia|done].
  - apply regex_template_prod.
  - by apply toInt_template_prod_overflow.
Qed.

Lemma createProduct_allocates (d : ProductFormData) (urls : list string)
    (k : Z) (w : World) :
  allocated_through k w → 0 ≤ k ≤ Bson.INT32_MAX →
  ∃ p w', createProduct d urls w = Resolved p w' ∧
    Product._id p = template_prod (k + 1) ∧
    allocated_through (k + 1) w'.
Proof.
  intros Halloc Hk.
  pose proof (allocated_next k w Halloc Hk) as Hnext.
  pose proof (allocated_fresh k w Halloc ltac:(lia)) as Hfresh.
  destruct (createProduct_resolves d urls w _ Hnext Hfresh)
    as (p & w' & Hrun & Hid).
  exists p, w'. split; [done|]. split; [done|].
  destruct (createProduct_resolved _ _ _ _ _ Hrun)
    as (_ & _ & _ & Hproducts & _).
  intros id. rewrite Hproducts, Hid.
  destruct (decide (id = template_prod (k + 1))) as [->|Hne].
  - rewrite lookup_insert_eq. split; [|by eauto].
    intros _. exists (k + 1). split; [lia|done].
  - rewrite lookup_insert_ne by done. rewrite (Halloc id). split.
    + intros (i & Hi & ->). exists i. split; [lia|done].
    + intros (i & Hi & ->). exists i. split; [|done].
      assert (i ≠ k + 1) by congruence. lia.
Qed.

Lemma create_serially_from (calls : list (ProductFormData * list string)) :
  ∀ (k : Z) (w : World),
    allocated_through k w → 0 ≤ k →
    k + Z.of_nat (length calls) ≤ Bson.INT32_MAX + 1 →
    ∃ ps w', create_serially calls w = Resolved ps w' ∧
      length ps = length calls ∧
      (∀ i p, ps !! i = Some p →
              Product._id p = template_prod (k + Z.of_nat i + 1)) ∧
      allocated_through (k + Z.of_nat (length calls)) w'.
Proof.
  induction calls as [|[d urls] calls IH]; intros k w Halloc Hk Hroom.
  - exists [], w. split; [done|]. split; [done|]. split; [done|].
    simpl. by rewrite Z.add_0_r.
  - simpl length in *. rewrite Nat2Z.inj_succ in Hroom.
    destruct (createProduct_allocates d urls k w Halloc ltac:(lia))
      as (p & w1 & Hrun & Hid & Halloc1).
    destruct (IH (k + 1) w1 Halloc1 ltac:(lia) ltac:(lia))
      as (ps & w' & Hrest & Hlen & Hids & Halloc').
    exists (p :: ps), w'. split; [|split; [|split]].
    + simpl. unfold mbind, Async_bind. simpl. rewrite Hrun, Hrest. done.
    + simpl. by rewrite Hlen.
    + intros [|i] q Hq; simpl in Hq.
      * injection Hq as <-. rewrite Hid. f_equal. lia.
      * rewrite (Hids i q Hq). f_equal. lia.
    + rewrite Nat2Z.inj_succ.
      replace (k + Z.succ (Z.of_nat (length calls)))
        with (k + 1 + Z.of_nat (length calls)) by lia.
      done.
Qed.

(** More calls than there are identifiers with a 32 bit suffix: the
    call after [prod_2147483648] is rejected, and so is the series. *)
Lemma create_serially_beyond (calls : list (ProductFormData * list string)) :
  ∀ (k : Z) (w : World),
    allocated_through k w → 0 ≤ k ≤ Bson.INT32_MAX + 1 →
    Bson.INT32_MAX + 1 < k + Z.of_nat (length calls) →
    ∃ w', create_serially calls w = Rejected ConversionFailure w'.
Proof.
  induction calls as [|[d urls] calls IH]; intros k w Halloc Hk Hmany.
  - simpl in Hmany. lia.
  - simpl length in Hmany. rewrite Nat2Z.inj_succ in Hmany.
    destruct (decide (k = Bson.INT32_MAX + 1)) as [Hlast|Hmore].
    + exists w. simpl. unfold mbind, Async_bind. simpl.
      rewrite (createProduct_rejects d urls w ConversionFailure); [done|].
      apply (allocated_overflow k); [done|lia].
    + destruct (createProduct_allocates d urls k w Halloc ltac:(lia))
        as (p & w1 & Hrun & _ & Halloc1).
      destruct (IH (k + 1) w1 Halloc1 ltac:(lia) ltac:(lia)) as (w' & Hrest).
      exists w'. simpl. unfold mbind, Async_bind. simpl.
      by rewrite Hrun, Hrest.
Qed.

End serial.

(** C2, as the code has it. Starting from a store without products,
    whenever a series of serial [createProduct] calls resolves, the
    product of the [i]-th call (counting from 1) has the identifier built
    from [i]: [prod_] and [i] zero-padded to four digits, whose suffix
    reads back as [i]. So the identifiers come in call order, are pairwise
    different and strictly increase in their numeric suffix. Such a series
    has at most 2147483648 calls: a longer one is rejected. *)
Theorem create_serially_numbers_in_call_order
    (calls : list (ProductFormData * list string)) (w w' : World)
    (ps : list Product.t) :
  products w = ∅ →
  create_serially calls w = Resolved ps w' →
  length ps = length calls ∧
  (∀ i p, ps !! i = Some p →
     Product._id p = template_prod (Z.of_nat i + 1) ∧
     Bson.magnitude (Bson.substr_from 5 (Product._id p))
       = Some (Z.of_nat i + 1)) ∧
  NoDup (Product._id <$> ps) ∧
  (∀ i j a b, ps !! i = Some a → ps !! j = Some b → (i < j)%nat →
     ∃ m n, Bson.magnitude (Bson.substr_from 5 (Product._id a)) = Some m ∧
            Bson.magnitude (Bson.substr_from 5 (Product._id b)) = Some n ∧
            m < n) ∧
  Z.of_nat (length calls) ≤ 2147483648.
Proof.
  intros Hempty Hresolved.
  pose proof (allocated_through_empty w Hempty) as Hstart.
  assert (Z.of_nat (length calls) ≤ 2147483648) as Hmany.
  { destruct (decide (Z.of_nat (length calls) ≤ 2147483648)) as [|Hlong];
      [done|].
    destruct (create_serially_beyond calls 0 w Hstart
                ltac:(unfold Bson.INT32_MAX; lia)
                ltac:(unfold Bson.INT32_MAX; lia)) as (w1 & Hrejected).
    congruence. }
  destruct (create_serially_from calls 0 w Hstart
              ltac:(lia) ltac:(unfold Bson.INT32_MAX; lia))
    as (ps0 & w0 & Hrun & Hlen & Hids & _).
  assert (ps0 = ps) as -> by congruence.
  assert (∀ i p, ps !! i = Some p →
            Product._id p = template_prod (Z.of_nat i + 1) ∧
            Bson.magnitude (Bson.substr_from 5 (Product._id p))
              = Some (Z.of_nat i + 1)) as Hnum.
  { intros i p Hp. rewrite (Hids i p Hp). rewrite Z.add_0_l. split; [done|].
    rewrite substr_template_prod. apply magnitude_padStart_toString. lia. }
  split; [done|]. split; [done|]. split; [|split; [|done]].
  - apply NoDup_alt. intros i j id Hi Hj.
    rewrite list_lookup_fmap in Hi, Hj.
    destruct (ps !! i) as [a|] eqn:Ha; [|done].
    destruct (ps !! j) as [b|] eqn:Hb; [|done].
    simpl in Hi, Hj.
    destruct (Hnum i a Ha) as [_ Hma]. destruct (Hnum j b Hb) as [_ Hmb].
    assert (Product._id a = Product._id b) as Heq by congruence.
    rewrite Heq in Hma. rewrite Hma in Hmb. injection Hmb as Hij. lia.
  - intros i j a b Ha Hb Hij.
    destruct (Hnum i a Ha) as [_ Hma]. destruct (Hnum j b Hb) as [_ Hmb].
    exists (Z.of_nat i + 1), (Z.of_nat j + 1). split; [done|]. split; [done|lia].
Qed.

Lemma create_serially_numbers_in_call_order_witness :
  ∃ ps w',
    create_serially [(widget, ["u1"; "u2"]); (gadget, ["u3"]); (widget, [])] shop
      = Resolved ps w' ∧
    Product._id <$> ps = ["prod_0001"; "prod_0002"; "prod_0003"].
Proof.
  destruct (create_serially
              [(widget, ["u1"; "u2"]); (gadget, ["u3"]); (widget, [])] shop)
    as [ps w'|e w'] eqn:Hrun.
  2: { vm_compute in Hrun. discriminate Hrun. }
  destruct (create_serially_numbers_in_call_order
              [(widget, ["u1"; "u2"]); (gadget, ["u3"]); (widget, [])]
              shop w' ps)
    as (Hlen & Hids & _).
  { reflexivity. }
  { exact Hrun. }
  exists ps, w'. split; [reflexivity|].
  destruct ps as [|a [|b [|c [|e ps]]]]; try discriminate Hlen.
  destruct (Hids 0%nat a eq_refl) as [Ha _].
  destruct (Hids 1%nat b eq_refl) as [Hb _].
  destruct (Hids 2%nat c eq_refl) as [Hc _].
  simpl. rewrite Ha, Hb, Hc. reflexivity.
Defined.

(** C2 as stated fails for a series of 2147483649 calls, also in a
    database where no call finds a category or subcategory to write to:
    after [prod_2147483648] is stored, [$toInt] no longer converts its
    suffix and the next call is rejected. *)
Lemma create_serially_rejected_after_int32 :
  ∃ w', create_serially (replicate (Z.to_nat 2147483649) (widget, ["u1"])) bare
          = Rejected ConversionFailure w'.
Proof.
  apply (create_serially_beyond _ 0 bare).
  - by apply allocated_through_empty.
  - unfold Bson.INT32_MAX. lia.
  - rewrite length_replicate. rewrite Z2Nat.id by lia.
    unfold Bson.INT32_MAX. lia.
Qed.


(** ** Allocation never collides *)

Section freshness.

Lemma magnitude_toString (n : Z) :
  0 ≤ n → Bson.magnitude (Js.toString n) = Some n.
Proof.
  intros Hn. pose proof (length_toString_pos n Hn) as Hlen.
  pose proof (magnitude_from_toString n Hn) as Hmag.
  unfold Bson.magnitude. destruct (Js.toString n); [simpl in Hlen; lia|done].
Qed.

Lemma toString_neg (p : positive) :
  Js.toString (Z.neg p) = String "-" (Js.toString (Z.pos p)).
Proof. reflexivity. Qed.

Lemma magnitude_from_zeros_minus (k : nat) (s : string) :
  Bson.magnitude_from 0 (Js.replicate_char k "0" +:+ String "-" s) = None.
Proof. by rewrite magnitude_from_zeros. Qed.

(** The suffix of a built identifier converts to the number it was built
    from, or not at all. *)
Lemma toInt_template_prod_cases (n : Z) :
  Bson.toInt (Bson.substr_from 5 (template_prod n)) = None ∨
  Bson.toInt (Bson.substr_from 5 (template_prod n)) = Some n.
Proof.
  rewrite substr_template_prod. destruct n as [|p|p].
  - right. reflexivity.
  - rewrite (toInt_of_magnitude _ (Z.pos p))
      by (apply magnitude_padStart_toString; lia).
    case_decide; [by right|by left].
  - rewrite toString_neg. unfold Js.padStart.
    destruct (4 - String.length (String "-" (Js.toString (Z.pos p))))%nat
      as [|k].
    + change (Js.replicate_char 0 "0" +:+ String "-" (Js.toString (Z.pos p)))
        with (String "-" (Js.toString (Z.pos p))).
      unfold Bson.toInt.
      rewrite (magnitude_toString (Z.pos p)) by lia. simpl option_map.
      cbv iota beta. change (- Z.pos p) with (Z.neg p).
      destruct (decide (Bson.INT32_MIN ≤ Z.neg p ≤ Bson.INT32_MAX));
        [by right|by left].
    + left.
      change (Js.replicate_char (S k) "0" +:+ String "-" (Js.toString (Z.pos p)))
        with (String "0" (Js.replicate_char k "0"
                            +:+ String "-" (Js.toString (Z.pos p)))).
      unfold Bson.toInt.
      assert (Bson.magnitude
                (String "0" (Js.replicate_char k "0"
                               +:+ String "-" (Js.toString (Z.pos p))))
              = None) as Hnone.
      { unfold Bson.magnitude. simpl Bson.magnitude_from.
        apply magnitude_from_zeros_minus. }
      simpl. simpl in Hnone. by rewrite Hnone.
Qed.

(** Every stored identifier that the pipeline matches has a numeric part
    among the projected ones. *)
Lemma stage_project_defined (w : World) (parts : list Z) (id : string) :
  Db.stage_project (Db.stage_match (Db.product_docs w)) = Some parts →
  is_Some (products w !! id) → Bson.regex_prod id = true →
  ∃ v, Bson.toInt (Bson.substr_from 5 id) = Some v ∧ v ∈ parts.
Proof.
  intros Hparts [p Hp] Hre.
  pose proof Hparts as Hall. unfold Db.stage_project, Db.stage_match in Hall.
  apply mapM_Some in Hall.
  assert (Product.doc id p ∈
            filter (λ d, Bson.regex_prod (Product._id d) = true)
              (Db.product_docs w)) as Hd.
  { apply list_elem_of_filter. split; [done|]. by apply elem_of_product_docs. }
  apply list_elem_of_lookup in Hd as [i Hi].
  destruct (Forall2_lookup_l _ _ _ _ _ Hall Hi) as (v & Hv & Hnum).
  exists v. split; [exact Hnum|]. by eapply list_elem_of_lookup_2.
Qed.

Lemma getNextProductId_inv (w w' : World) (id : string) :
  getNextProductId w = Resolved id w' →
  ∃ parts, Db.stage_project (Db.stage_match (Db.product_docs w)) = Some parts ∧
    id = template_prod (nextNum (Db.stage_limit (Db.stage_sort parts))) ∧
    w' = w.
Proof.
  unfold getNextProductId, mbind, Async_bind, Db.products_aggregate.
  destruct (Db.stage_project (Db.stage_match (Db.product_docs w)))
    as [parts|]; [|done].
  unfold mret, Async_ret. intros [= <- <-]. by exists parts.
Qed.

Lemma getNextProductId_rejected_inv (w w' : World) (e : MongoError) :
  getNextProductId w = Rejected e w' → e = ConversionFailure ∧ w' = w.
Proof.
  unfold getNextProductId, mbind, Async_bind, Db.products_aggregate.
  destruct (Db.stage_project (Db.stage_match (Db.product_docs w)));
    [done|]. by intros [= <- <-].
Qed.

(** The identifier depends on the [products] collection alone. *)
Lemma getNextProductId_products_only (w1 w2 : World) (id : string) :
  products w2 = products w1 →
  getNextProductId w1 = Resolved id w1 →
  getNextProductId w2 = Resolved id w2.
Proof.
  intros Hsame Hid. apply getNextProductId_inv in Hid as (parts & Hparts & -> & _).
  unfold getNextProductId, mbind, Async_bind, Db.products_aggregate.
  unfold Db.product_docs in *. rewrite Hsame, Hparts. reflexivity.
Qed.

(** A stored identifier cannot be the next one: its numeric part would
    exceed the greatest numeric part. *)
Lemma next_id_not_stored (w : World) (id : string) :
  getNextProductId w = Resolved id w → products w !! id = None.
Proof.
  intros Hid. apply getNextProductId_inv in Hid as (parts & Hparts & -> & _).
  apply eq_None_not_Some. intros Hstored.
  destruct (stage_project_defined w parts _ Hparts Hstored
              (regex_template_prod _)) as (v & Hv & Hin).
  destruct (toInt_template_prod_cases
              (nextNum (Db.stage_limit (Db.stage_sort parts))))
    as [Hnone|Hsome]; [congruence|].
  assert (v = nextNum (Db.stage_limit (Db.stage_sort parts))) as -> by congruence.
  pose proof (stage_limit_sort_top parts) as Htop.
  destruct (Db.stage_limit (Db.stage_sort parts)) as [|top rest].
  - subst parts. by apply elem_of_nil in Hin.
  - destruct Htop as [_ Hmax]. specialize (Hmax _ Hin). simpl in Hmax. lia.
Qed.

End freshness.

(** X1. Whatever the store holds, an identifier that [getNextProductId]
    resolves with starts with [prod_] and is not the [_id] of a stored
    product; the store is left as it was. *)
Theorem getNextProductId_is_fresh (w w' : World) (id : string) :
  getNextProductId w = Resolved id w' →
  w' = w ∧ Bson.regex_prod id = true ∧ products w !! id = None.
Proof.
  intros Hid.
  destruct (getNextProductId_inv _ _ _ Hid) as (parts & _ & Hbuilt & ->).
  split; [done|]. split.
  - rewrite Hbuilt. apply regex_template_prod.
  - by apply next_id_not_stored.
Qed.

Lemma getNextProductId_is_fresh_witness :
  products shop2 !! "prod_0003" = None.
Proof.
  apply (getNextProductId_is_fresh shop2 shop2 "prod_0003").
  vm_compute. reflexivity.
Defined.

(** ** Create, look up, delete *)

Section lifecycle.

Lemma createProduct_rejected_inv (d : ProductFormData) (urls : list string)
    (w w' : World) (e : MongoError) :
  createProduct d urls w = Rejected e w' → e = ConversionFailure ∧ w' = w.
Proof.
  intros Hrun. pose proof (getNextProductId_reads w) as Hreads.
  destruct (getNextProductId w) as [id w1|e1 w1] eqn:Hid; subst w1.
  - destruct (createProduct_resolves d urls w id Hid (next_id_not_stored w id Hid))
      as (p & w2 & Hok & _).
    congruence.
  - rewrite (createProduct_rejects d urls w e1 Hid) in Hrun.
    injection Hrun as <- <-.
    by destruct (getNextProductId_rejected_inv _ _ _ Hid) as [-> _].
Qed.

Lemma getProductById_unfold (id : string) (w : World) :
  getProductById id w = Resolved (Product.doc id <$> products w !! id) w.
Proof. reflexivity. Qed.

(** [deleteProduct] always resolves; what it leaves in [products]. *)
Lemma deleteProduct_products (id : string) (w : World) :
  ∃ w', deleteProduct id w = Resolved () w' ∧
    products w' = delete id (products w).
Proof.
  destruct (products w !! id) as [p|] eqn:Hp.
  - eexists. split; [by apply deleteProduct_existing|]. done.
  - exists w. split; [by apply deleteProduct_missing|].
    by rewrite delete_id.
Qed.

Lemma alter_absent {A} (f : A → A) (k : string) (m : gmap string A) :
  m !! k = None → alter f k m = m.
Proof.
  intros Hk. apply map_eq. intros j. rewrite lookup_alter.
  case_decide; [subst; by rewrite Hk|done].
Qed.

End lifecycle.

(** X3. The product [createProduct] resolves with is the one
    [getProductById] finds under its identifier afterwards, and looking up
    any other identifier gives what it gave before. *)
Theorem createProduct_then_getProductById
    (d : ProductFormData) (urls : list string) (w w' : World) (p : Product.t) :
  createProduct d urls w = Resolved p w' →
  getProductById (Product._id p) w' = Resolved (Some p) w' ∧
  getProductById (Product._id p) w = Resolved None w ∧
  (∀ k r, k ≠ Product._id p →
     getProductById k w = Resolved r w → getProductById k w' = Resolved r w').
Proof.
  intros Hrun.
  destruct (createProduct_resolved _ _ _ _ _ Hrun)
    as (_ & Hfresh & _ & Hproducts & _).
  rewrite !getProductById_unfold. split; [|split].
  - rewrite Hproducts, lookup_insert_eq. by destruct p.
  - by rewrite Hfresh.
  - intros k r Hk. rewrite !getProductById_unfold, Hproducts.
    rewrite lookup_insert_ne by done. by intros [= <-].
Qed.

Lemma createProduct_then_getProductById_witness :
  ∃ p, getProductById "prod_0002" shop2 = Resolved (Some p) shop2 ∧
    Product.product_name (Product.rest p) = "Gadget".
Proof.
  exists (Product.doc "prod_0002"
            (Product.mk "prod_0002" "Gadget" "A gadget" "Square" ["u3"] 1
               "S1" "C1" active 1004 1005)).
  destruct (createProduct_then_getProductById gadget ["u3"] shop1 shop2
              (Product.doc "prod_0002"
                 (Product.mk "prod_0002" "Gadget" "A gadget" "Square" ["u3"] 1
                    "S1" "C1" active 1004 1005)))
    as (Hfound & _ & _).
  { vm_compute. reflexivity. }
  split; [exact Hfound|reflexivity].
Defined.

(** X5. Deleting a product right after it was created undoes the
    creation: the [products] collection is as before, and a category or
    subcategory document that did not list the identifier before has its
    old name, product-ID list and count again (only [updated_at] moved). *)
Theorem createProduct_then_deleteProduct_restores
    (d : ProductFormData) (urls : list string) (w w' : World) (p : Product.t) :
  createProduct d urls w = Resolved p w' →
  ∃ w'', deleteProduct (Product._id p) w' = Resolved () w'' ∧
    products w'' = products w ∧
    (∀ k c, categories w !! k = Some c →
       Product._id p ∉ Category.product_ids c →
       ∃ c'', categories w'' !! k = Some c'' ∧
         Category.name c'' = Category.name c ∧
         Category.product_ids c'' = Category.product_ids c ∧
         Category.product_count c'' = Category.product_count c) ∧
    (∀ k sc, subcategories w !! k = Some sc →
       Product._id p ∉ Subcategory.product_ids sc →
       ∃ sc'', subcategories w'' !! k = Some sc'' ∧
         Subcategory.name sc'' = Subcategory.name sc ∧
         Subcategory.category_id sc'' = Subcategory.category_id sc ∧
         Subcategory.product_ids sc'' = Subcategory.product_ids sc ∧
         Subcategory.product_count sc'' = Subcategory.product_count sc).
Proof.
  intros Hrun.
  destruct (createProduct_resolved _ _ _ _ _ Hrun)
    as (_ & Hfresh & Hrest & Hproducts & Hcats & Hsubs).
  assert (products w' !! Product._id p = Some (Product.rest p)) as Hstored
    by (rewrite Hproducts; apply lookup_insert_eq).
  eexists. split; [by apply deleteProduct_existing|]. simpl.
  split; [|split].
  - rewrite Hproducts, delete_insert_eq. by apply delete_id.
  - intros k c Hc Habsent. rewrite Hcats, Hrest. simpl.
    destruct (decide (k = form_category_id d)) as [->|Hne].
    + rewrite !lookup_alter_eq, Hc. simpl. eexists. split; [reflexivity|].
      simpl. rewrite filter_app, (pull_absent _ _ Habsent).
      rewrite filter_cons_False by (intros Hx; by apply Hx).
      rewrite filter_nil, app_nil_r. repeat split; lia.
    + rewrite !lookup_alter_ne by done. by exists c.
  - intros k sc Hsc Habsent. rewrite Hsubs, Hrest. simpl.
    destruct (decide (k = form_subcategory_id d)) as [->|Hne].
    + rewrite !lookup_alter_eq, Hsc. simpl. eexists. split; [reflexivity|].
      simpl. rewrite filter_app, (pull_absent _ _ Habsent).
      rewrite filter_cons_False by (intros Hx; by apply Hx).
      rewrite filter_nil, app_nil_r. repeat split; lia.
    + rewrite !lookup_alter_ne by done. by exists sc.
Qed.

Lemma createProduct_then_deleteProduct_restores_witness :
  ∃ w'', deleteProduct "prod_0002" shop2 = Resolved () w'' ∧
    products w'' = products shop1 ∧
    ∃ c'', categories w'' !! "C1" = Some c'' ∧
      Category.product_ids c'' = ["prod_0001"] ∧
      Category.product_count c'' = 1.
Proof.
  destruct (createProduct_then_deleteProduct_restores gadget ["u3"] shop1 shop2
              (Product.doc "prod_0002"
                 (Product.mk "prod_0002" "Gadget" "A gadget" "Square" ["u3"] 1
                    "S1" "C1" active 1004 1005)))
    as (w'' & Hrun & Hproducts & Hcats & _).
  { vm_compute. reflexivity. }
  exists w''. split; [exact Hrun|]. split; [exact Hproducts|].
  destruct (Hcats "C1" (Category.mk "Tools" ["prod_0001"] 1 1002))
    as (c'' & Hc'' & _ & Hids & Hcount).
  { vm_compute. reflexivity. }
  { simpl. intros Hin. apply list_elem_of_singleton in Hin. discriminate Hin. }
  exists c''. split; [exact Hc''|]. split; [exact Hids|exact Hcount].
Defined.

(** X6. Identifiers are reused: after the product created last is
    deleted, [getNextProductId] resolves with its identifier again. *)
Theorem deleted_identifier_is_allocated_again
    (d : ProductFormData) (urls : list string) (w w' : World) (p : Product.t) :
  createProduct d urls w = Resolved p w' →
  ∃ w'', deleteProduct (Product._id p) w' = Resolved () w'' ∧
    getNextProductId w'' = Resolved (Product._id p) w''.
Proof.
  intros Hrun.
  destruct (createProduct_resolved _ _ _ _ _ Hrun)
    as (Hid & Hfresh & _ & Hproducts & _).
  destruct (deleteProduct_products (Product._id p) w') as (w'' & Hdel & Hgone).
  exists w''. split; [done|].
  apply (getNextProductId_products_only w w''); [|done].
  rewrite Hgone, Hproducts, delete_insert_eq. by apply delete_id.
Qed.

Lemma deleted_identifier_is_allocated_again_witness :
  ∃ w'', deleteProduct "prod_0002" shop2 = Resolved () w'' ∧
    getNextProductId w'' = Resolved "prod_0002" w''.
Proof.
  apply (deleted_identifier_is_allocated_again gadget ["u3"] shop1 shop2
           (Product.doc "prod_0002"
              (Product.mk "prod_0002" "Gadget" "A gadget" "Square" ["u3"] 1
                 "S1" "C1" active 1004 1005))).
  vm_compute. reflexivity.
Defined.

(** X7. [createProduct] does not check that the category and the
    subcategory exist: it resolves all the same, stores the product with
    the identifiers it was given, and a parent collection without a
    document under the given identifier is left exactly as it was (no
    document is created). *)
Theorem createProduct_with_unknown_parents
    (d : ProductFormData) (urls : list string) (w w' : World) (p : Product.t) :
  createProduct d urls w = Resolved p w' →
  products w' !! Product._id p = Some (Product.rest p) ∧
  Product.category_id (Product.rest p) = form_category_id d ∧
  Product.subcategory_id (Product.rest p) = form_subcategory_id d ∧
  (categories w !! form_category_id d = None → categories w' = categories w) ∧
  (subcategories w !! form_subcategory_id d = None →
     subcategories w' = subcategories w).
Proof.
  intros Hrun.
  destruct (createProduct_resolved _ _ _ _ _ Hrun)
    as (_ & _ & Hrest & Hproducts & Hcats & Hsubs).
  split; [rewrite Hproducts; apply lookup_insert_eq|].
  rewrite Hrest. simpl. split; [done|]. split; [done|]. split.
  - intros Hmissing. rewrite Hcats. by apply alter_absent.
  - intros Hmissing. rewrite Hsubs. by apply alter_absent.
Qed.

Lemma createProduct_with_unknown_parents_witness :
  ∃ p w', createProduct widget ["u1"] crowded = Resolved p w' ∧
    Product._id p = "prod_10000" ∧
    Product.category_id (Product.rest p) = "C1" ∧
    categories w' = ∅ ∧ subcategories w' = ∅.
Proof.
  exists (Product.doc "prod_10000"
            (Product.mk "prod_10000" "Widget" "A widget" "Round" ["u1"] 1
               "S1" "C1" active 1000 1001)),
    (world_of (createProduct widget ["u1"] crowded)).
  destruct (createProduct_with_unknown_parents widget ["u1"] crowded
              (world_of (createProduct widget ["u1"] crowded))
              (Product.doc "prod_10000"
                 (Product.mk "prod_10000" "Widget" "A widget" "Round" ["u1"] 1
                    "S1" "C1" active 1000 1001)))
    as (_ & Hcat & _ & Hcats & Hsubs).
  { vm_compute. reflexivity. }
  split; [vm_compute; reflexivity|]. split; [reflexivity|].
  split; [exact Hcat|]. split.
  - apply Hcats. reflexivity.
  - apply Hsubs. reflexivity.
Defined.

(** ** Create and delete keep the catalogue consistent *)

Section consistency.

Lemma length_pull_present (x : string) (l : list string) :
  NoDup l → x ∈ l →
  (length (filter (λ y, y ≠ x) l) + 1 = length l)%nat.
Proof.
  induction l as [|y l IH]; intros Hnodup Hin; [by apply elem_of_nil in Hin|].
  apply NoDup_cons in Hnodup as [Hy Hnodup].
  destruct (decide (y = x)) as [->|Hne].
  - rewrite filter_cons_False by (intros Hx; by apply Hx).
    rewrite pull_absent by done. simpl. lia.
  - rewrite filter_cons_True by done. simpl.
    apply elem_of_cons in Hin as [Heq|Hin]; [congruence|].
    specialize (IH Hnodup Hin). lia.
Qed.

Lemma shop_consistent : consistent shop.
Proof.
  split; [|split].
  - intros k c Hc. unfold shop in Hc. cbn [categories] in Hc.
    apply lookup_singleton_Some in Hc as [<- <-]. simpl.
    split; [done|]. split; [apply NoDup_nil_2|].
    intros id Hin. by apply elem_of_nil in Hin.
  - intros k sc Hsc. unfold shop in Hsc. cbn [subcategories] in Hsc.
    apply lookup_singleton_Some in Hsc as [<- <-]. simpl.
    split; [done|]. split; [apply NoDup_nil_2|].
    intros id Hin. by apply elem_of_nil in Hin.
  - intros id p Hp. unfold shop in Hp. cbn [products] in Hp.
    by rewrite lookup_empty in Hp.
Qed.

(** Storing a product under an unused identifier and pushing the
    identifier to the parents it names keeps a consistent catalogue
    consistent. *)
Lemma consistent_after_insert (w w' : World) (id : string)
    (q0 : Product.fields) (t1 t2 : Z) :
  consistent w → products w !! id = None →
  products w' = <[id := q0]> (products w) →
  categories w' =
    alter (Category.push_inc_set id t1) (Product.category_id q0) (categories w) →
  subcategories w' =
    alter (Subcategory.push_inc_set id t2) (Product.subcategory_id q0)
      (subcategories w) →
  consistent w'.
Proof.
  intros (Hcat & Hsub & Hlist) Hfresh Hproducts Hcats Hsubs.
  assert (∀ x q, products w !! x = Some q → products w' !! x = Some q) as Hkeep.
  { intros x q Hq. rewrite Hproducts, lookup_insert_ne; [done|].
    intros Heq. rewrite Heq in Hfresh. congruence. }
  assert (products w' !! id = Some q0) as Hnew
    by (rewrite Hproducts; apply lookup_insert_eq).
  split; [|split].
  - intros k c' Hc'. rewrite Hcats in Hc'.
    apply lookup_alter_Some in Hc' as [[<- (c & Hc & ->)]|[Hne Hc]].
    + destruct (Hcat _ c Hc) as (Hcount & Hnodup & Hmem). simpl.
      split; [rewrite length_app; simpl; lia|]. split.
      * apply NoDup_app. split; [done|]. split; [|apply NoDup_singleton].
        intros x Hx Hx'. apply list_elem_of_singleton in Hx' as ->.
        destruct (Hmem _ Hx) as (q & Hq & _). congruence.
      * intros x Hx. apply elem_of_app in Hx as [Hx|Hx].
        -- destruct (Hmem _ Hx) as (q & Hq & Hk). exists q. by auto.
        -- apply list_elem_of_singleton in Hx as ->.
           exists q0. by split.
    + destruct (Hcat _ c' Hc) as (Hcount & Hnodup & Hmem).
      split; [done|]. split; [done|]. intros x Hx.
      destruct (Hmem _ Hx) as (q & Hq & Hk). exists q. by auto.
  - intros k sc' Hsc'. rewrite Hsubs in Hsc'.
    apply lookup_alter_Some in Hsc' as [[<- (sc & Hsc & ->)]|[Hne Hsc]].
    + destruct (Hsub _ sc Hsc) as (Hcount & Hnodup & Hmem). simpl.
      split; [rewrite length_app; simpl; lia|]. split.
      * apply NoDup_app. split; [done|]. split; [|apply NoDup_singleton].
        intros x Hx Hx'. apply list_elem_of_singleton in Hx' as ->.
        destruct (Hmem _ Hx) as (q & Hq & _). congruence.
      * intros x Hx. apply elem_of_app in Hx as [Hx|Hx].
        -- destruct (Hmem _ Hx) as (q & Hq & Hk). exists q. by auto.
        -- apply list_elem_of_singleton in Hx as ->.
           exists q0. by split.
    + destruct (Hsub _ sc' Hsc) as (Hcount & Hnodup & Hmem).
      split; [done|]. split; [done|]. intros x Hx.
      destruct (Hmem _ Hx) as (q & Hq & Hk). exists q. by auto.
  - intros x q Hq. rewrite Hproducts in Hq.
    apply lookup_insert_Some in Hq as [[<- <-]|[Hne Hq]].
    + split.
      * intros c' Hc'. rewrite Hcats, lookup_alter_eq in Hc'.
        destruct (categories w !! Product.category_id q0) as [c|]; [|done].
        injection Hc' as <-. simpl. apply elem_of_app. right.
        apply list_elem_of_here.
      * intros sc' Hsc'. rewrite Hsubs, lookup_alter_eq in Hsc'.
        destruct (subcategories w !! Product.subcategory_id q0) as [sc|]; [|done].
        injection Hsc' as <-. simpl. apply elem_of_app. right.
        apply list_elem_of_here.
    + destruct (Hlist _ _ Hq) as [Hc Hs]. split.
      * intros c' Hc'. rewrite Hcats in Hc'.
        apply lookup_alter_Some in Hc' as [[_ (c & Hc0 & ->)]|[_ Hc0]].
        -- simpl. apply elem_of_app. left. by apply Hc.
        -- by apply Hc.
      * intros sc' Hsc'. rewrite Hsubs in Hsc'.
        apply lookup_alter_Some in Hsc' as [[_ (sc & Hsc0 & ->)]|[_ Hsc0]].
        -- simpl. apply elem_of_app. left. by apply Hs.
        -- by apply Hs.
Qed.

(** Removing a stored product and pulling its identifier from the
    parents it names keeps a consistent catalogue consistent. *)
Lemma consistent_after_delete (w w' : World) (id : string)
    (p : Product.fields) (t1 t2 : Z) :
  consistent w → products w !! id = Some p →
  products w' = delete id (products w) →
  categories w' =
    alter (Category.pull_dec_set id t1) (Product.category_id p) (categories w) →
  subcategories w' =
    alter (Subcategory.pull_dec_set id t2) (Product.subcategory_id p)
      (subcategories w) →
  consistent w'.
Proof.
  intros (Hcat & Hsub & Hlist) Hp Hproducts Hcats Hsubs.
  destruct (Hlist _ _ Hp) as [Hpc Hps].
  split; [|split].
  - intros k c' Hc'. rewrite Hcats in Hc'.
    apply lookup_alter_Some in Hc' as [[<- (c & Hc & ->)]|[Hne Hc]].
    + destruct (Hcat _ c Hc) as (Hcount & Hnodup & Hmem). simpl.
      pose proof (length_pull_present id _ Hnodup (Hpc c Hc)) as Hlen.
      split; [lia|]. split; [by apply NoDup_filter|].
      intros x Hx. apply list_elem_of_filter in Hx as [Hxid Hx].
      destruct (Hmem _ Hx) as (q & Hq & Hk). exists q. split; [|done].
      by rewrite Hproducts, lookup_delete_ne.
    + destruct (Hcat _ c' Hc) as (Hcount & Hnodup & Hmem).
      split; [done|]. split; [done|]. intros x Hx.
      destruct (Hmem _ Hx) as (q & Hq & Hk). exists q. split; [|done].
      rewrite Hproducts, lookup_delete_ne; [done|]. intros <-. congruence.
  - intros k sc' Hsc'. rewrite Hsubs in Hsc'.
    apply lookup_alter_Some in Hsc' as [[<- (sc & Hsc & ->)]|[Hne Hsc]].
    + destruct (Hsub _ sc Hsc) as (Hcount & Hnodup & Hmem). simpl.
      pose proof (length_pull_present id _ Hnodup (Hps sc Hsc)) as Hlen.
      split; [lia|]. split; [by apply NoDup_filter|].
      intros x Hx. apply list_elem_of_filter in Hx as [Hxid Hx].
      destruct (Hmem _ Hx) as (q & Hq & Hk). exists q. split; [|done].
      by rewrite Hproducts, lookup_delete_ne.
    + destruct (Hsub _ sc' Hsc) as (Hcount & Hnodup & Hmem).
      split; [done|]. split; [done|]. intros x Hx.
      destruct (Hmem _ Hx) as (q & Hq & Hk). exists q. split; [|done].
      rewrite Hproducts, lookup_delete_ne; [done|]. intros <-. congruence.
  - intros x q Hq. rewrite Hproducts in Hq.
    apply lookup_delete_Some in Hq as [Hne Hq].
    destruct (Hlist _ _ Hq) as [Hc Hs]. split.
    + intros c' Hc'. rewrite Hcats in Hc'.
      apply lookup_alter_Some in Hc' as [[_ (c & Hc0 & ->)]|[_ Hc0]].
      * simpl. apply list_elem_of_filter. split; [congruence|]. by apply Hc.
      * by apply Hc.
    + intros sc' Hsc'. rewrite Hsubs in Hsc'.
      apply lookup_alter_Some in Hsc' as [[_ (sc & Hsc0 & ->)]|[_ Hsc0]].
      * simpl. apply list_elem_of_filter. split; [congruence|]. by apply Hs.
      * by apply Hs.
Qed.

Lemma shop1_consistent : consistent shop1.
Proof.
  apply (consistent_after_insert shop shop1 "prod_0001"
           (Product.mk "prod_0001" "Widget" "A widget" "Round" ["u1"; "u2"] 2
              "S1" "C1" active 1000 1001) 1002 1003).
  - apply shop_consistent.
  - reflexivity.
  - vm_compute. reflexivity.
  - vm_compute. reflexivity.
  - vm_compute. reflexivity.
Qed.

Lemma serve_consistent (c : Call) (w w' : World) :
  serve c w = Resolved () w' → consistent w → consistent w'.
Proof.
  intros Hrun Hw. destruct c as [d urls|id]; simpl in Hrun.
  - unfold mbind, Async_bind in Hrun.
    destruct (createProduct d urls w) as [p w1|e w1] eqn:Hcreate; [|done].
    injection Hrun as <-.
    destruct (createProduct_resolved _ _ _ _ _ Hcreate)
      as (_ & Hfresh & Hrest & Hproducts & Hcats & Hsubs).
    apply (consistent_after_insert w w1 (Product._id p) (Product.rest p)
             (clock w (S (S (ticks w)))) (clock w (S (S (S (ticks w))))));
      try done; by rewrite Hrest.
  - destruct (products w !! id) as [p|] eqn:Hp.
    + rewrite (deleteProduct_existing id w p Hp) in Hrun.
      injection Hrun as <-.
      by eapply (consistent_after_delete w _ id p).
    + rewrite (deleteProduct_missing id w Hp) in Hrun. by injection Hrun as <-.
Qed.

End consistency.

(** X8. A [createProduct] call that resolves keeps the catalogue
    consistent: if every category and subcategory counted its product-ID
    list, listed no identifier twice and listed only stored products
    naming it, and every stored product was listed by the existing
    parents it names, then the same holds in the world the call leaves. *)
Theorem createProduct_keeps_consistent
    (d : ProductFormData) (urls : list string) (w w' : World) (p : Product.t) :
  createProduct d urls w = Resolved p w' →
  consistent w → consistent w'.
Proof.
  intros Hrun Hw.
  destruct (createProduct_resolved _ _ _ _ _ Hrun)
    as (_ & Hfresh & Hrest & Hproducts & Hcats & Hsubs).
  apply (consistent_after_insert w w' (Product._id p) (Product.rest p)
           (clock w (S (S (ticks w)))) (clock w (S (S (S (ticks w))))));
    try done.
  - by rewrite Hrest.
  - by rewrite Hrest.
Qed.

Lemma createProduct_keeps_consistent_witness : consistent shop2.
Proof.
  apply (createProduct_keeps_consistent gadget ["u3"] shop1 shop2
           (Product.doc "prod_0002"
              (Product.mk "prod_0002" "Gadget" "A gadget" "Square" ["u3"] 1
                 "S1" "C1" active 1004 1005))).
  - vm_compute. reflexivity.
  - apply shop1_consistent.
Defined.



(** X10. A series of [createProduct] and [deleteProduct] calls, each
    awaited before the next, that resolves as a whole (so every call of it
    resolved) takes a consistent catalogue to a consistent one. In
    particular every category and subcategory then has a [product_count]
    equal to the length of its product-ID list, and lists no identifier
    twice. *)
Theorem serial_calls_keep_consistent (cs : list Call) (w w' : World) :
  serve_all cs w = Resolved () w' →
  consistent w →
  consistent w' ∧
  (∀ k c, categories w' !! k = Some c →
     Category.product_count c = Z.of_nat (length (Category.product_ids c)) ∧
     NoDup (Category.product_ids c)) ∧
  (∀ k sc, subcategories w' !! k = Some sc →
     Subcategory.product_count sc
       = Z.of_nat (length (Subcategory.product_ids sc)) ∧
     NoDup (Subcategory.product_ids sc)).
Proof.
  intros Hrun Hw.
  assert (consistent w') as Hend.
  { revert w Hrun Hw. induction cs as [|c cs IH]; intros w Hrun Hw.
    - simpl in Hrun. by injection Hrun as <-.
    - cbn [serve_all] in Hrun. unfold mbind, Async_bind in Hrun.
      destruct (serve c w) as [[] w1|e w1] eqn:Hcall; [|done].
      apply (IH w1 Hrun). by apply (serve_consistent c w w1). }
  split; [done|]. destruct Hend as (Hcat & Hsub & _). split.
  - intros k c Hc. destruct (Hcat k c Hc) as (Hcount & Hnodup & _). by split.
  - intros k sc Hsc. destruct (Hsub k sc Hsc) as (Hcount & Hnodup & _). by split.
Qed.

Lemma serial_calls_keep_consistent_witness :
  ∃ w', serve_all
          [CallCreate widget ["u1"; "u2"]; CallCreate gadget ["u3"];
           CallDelete "prod_0001"; CallCreate widget []] shop
        = Resolved () w' ∧
    consistent w'.
Proof.
  destruct (serve_all
              [CallCreate widget ["u1"; "u2"]; CallCreate gadget ["u3"];
               CallDelete "prod_0001"; CallCreate widget []] shop)
    as [[] w'|e w'] eqn:Hrun.
  2: { vm_compute in Hrun. discriminate Hrun. }
  exists w'. split; [reflexivity|].
  apply (serial_calls_keep_consistent
           [CallCreate widget ["u1"; "u2"]; CallCreate gadget ["u3"];
            CallDelete "prod_0001"; CallCreate widget []] shop w').
  - exact Hrun.
  - apply shop_consistent.
Defined.

(** X11. [updateProduct] does not keep the catalogue consistent. An
    accepted update that gives a stored product another [category_id],
    naming an existing category that does not list the product, leaves
    the product naming a category that does not list it, while the
    category it named before still lists it when it did. *)
Theorem updateProduct_moving_category_breaks_listing
    (id k' : string) (u : Product.partial) (w : World)
    (p : Product.fields) (c' : Category.t) :
  products w !! id = Some p →
  Product.set_category_id u = Some k' →
  (∀ id', Product.set__id u = Some id' → id' = id) →
  categories w !! k' = Some c' →
  id ∉ Category.product_ids c' →
  ∃ w' p', updateProduct id u w = Resolved () w' ∧
    products w' !! id = Some p' ∧
    Product.category_id p' = k' ∧
    categories w' !! k' = Some c' ∧
    categories w' = categories w ∧
    ¬ products_listed w'.
Proof.
  intros Hp Hmove Hid Hc' Habsent.
  eexists. eexists. split; [by apply updateProduct_existing|].
  cbn [products categories].
  split; [apply lookup_insert_eq|]. simpl. rewrite Hmove. simpl.
  split; [done|]. split; [done|]. split; [done|].
  intros Hlisted.
  destruct (Hlisted id _ (lookup_insert_eq _ _ _)) as [Hc _].
  cbn [categories] in Hc. simpl in Hc. rewrite Hmove in Hc. simpl in Hc.
  by apply Habsent, Hc.
Qed.

Lemma updateProduct_moving_category_breaks_listing_witness :
  ∃ w' p',
    updateProduct "prod_0001"
      (Product.mk_partial None None None None None None None None (Some "C2")
         None None None)
      (with_categories (insert "C2" (Category.mk "Toys" [] 0 0)) shop1)
    = Resolved () w' ∧
    products w' !! "prod_0001" = Some p' ∧
    Product.category_id p' = "C2" ∧
    categories w' !! "C2" = Some (Category.mk "Toys" [] 0 0) ∧
    (Category.product_ids <$> categories w' !! "C1") = Some ["prod_0001"].
Proof.
  destruct (updateProduct_moving_category_breaks_listing "prod_0001" "C2"
              (Product.mk_partial None None None None None None None None
                 (Some "C2") None None None)
              (with_categories (insert "C2" (Category.mk "Toys" [] 0 0)) shop1)
              (Product.mk "prod_0001" "Widget" "A widget" "Round" ["u1"; "u2"] 2
                 "S1" "C1" active 1000 1001)
              (Category.mk "Toys" [] 0 0))
    as (w' & p' & Hrun & Hp' & Hcat & Hc2 & Hcats & _).
  - vm_compute. reflexivity.
  - reflexivity.
  - intros id' Hid'. discriminate Hid'.
  - vm_compute. reflexivity.
  - simpl. intros Hin. by apply elem_of_nil in Hin.
  - exists w', p'. split; [exact Hrun|]. split; [exact Hp'|].
    split; [exact Hcat|]. split; [exact Hc2|].
    rewrite Hcats. vm_compute. reflexivity.
Defined.

(** X12. [updateProduct] never adds or removes a product document: the
    stored identifiers are the same after the call, however it settles.
    For an identifier that is not stored it resolves and leaves all three
    collections as they were; [updateOne] does not insert. *)
Theorem updateProduct_never_inserts
    (id : string) (u : Product.partial) (w : World) :
  (∀ k, is_Some (products (world_of (updateProduct id u w)) !! k)
        ↔ is_Some (products w !! k)) ∧
  (products w !! id = None →
   ∃ w', updateProduct id u w = Resolved () w' ∧
     products w' = products w ∧ categories w' = categories w ∧
     subcategories w' = subcategories w).
Proof.
  split.
  - intros k. destruct (products w !! id) as [p|] eqn:Hp.
    + destruct (updateProduct_cases id u w p Hp) as [[_ ->]|[_ ->]]; simpl;
        [|done].
      destruct (decide (k = id)) as [->|Hne].
      * rewrite lookup_insert_eq, Hp. split; by eauto.
      * by rewrite lookup_insert_ne.
    + by rewrite (updateProduct_missing id u w Hp).
  - intros Hp. eexists. split; [by apply updateProduct_missing|]. done.
Qed.

(** ** Listings *)

Section listings.

Lemma product_docs_insert (w w' : World) (id : string) (q : Product.fields) :
  products w !! id = None →
  products w' = <[id := q]> (products w) →
  Db.product_docs w' ≡ₚ Product.doc id q :: Db.product_docs w.
Proof.
  intros Hfresh Hproducts. unfold Db.product_docs. rewrite Hproducts.
  by rewrite (map_to_list_insert _ _ _ Hfresh).
Qed.

End listings.

(** X13. When every stored product was created before the clock reading
    that [createProduct] takes as [created_at], the created product is the
    first one [getAllProducts] lists afterwards, followed by the products
    listed before, in some order. *)
Theorem createProduct_then_getAllProducts
    (d : ProductFormData) (urls : list string) (w w' : World) (p : Product.t) :
  createProduct d urls w = Resolved p w' →
  (∀ id q, products w !! id = Some q →
     Product.created_at q < clock w (ticks w)) →
  ∃ older, getAllProducts w' = Resolved (p :: older) w' ∧
    ∀ ps, getAllProducts w = Resolved ps w → older ≡ₚ ps.
Proof.
  intros Hrun Hclock.
  destruct (createProduct_resolved _ _ _ _ _ Hrun)
    as (_ & Hfresh & Hrest & Hproducts & _).
  assert (Db.product_docs w' ≡ₚ p :: Db.product_docs w) as Hdocs.
  { rewrite (product_docs_insert w w' _ _ Hfresh Hproducts). by destruct p. }
  pose proof (merge_sort_Permutation Db.newer_first (Db.product_docs w')) as Hperm.
  pose proof (StronglySorted_merge_sort Db.newer_first (Db.product_docs w'))
    as Hsorted.
  unfold getAllProducts, Db.products_find_sorted, read.
  destruct (merge_sort Db.newer_first (Db.product_docs w')) as [|h t] eqn:Hsort.
  { rewrite Hdocs in Hperm. by apply Permutation_nil_cons in Hperm. }
  rewrite Hdocs in Hperm.
  assert (h = p) as ->.
  { assert (p ∈ h :: t) as Hp by (rewrite Hperm; apply list_elem_of_here).
    apply elem_of_cons in Hp as [->|Hp]; [done|].
    assert (h ∈ p :: Db.product_docs w) as Hh
      by (rewrite <- Hperm; apply list_elem_of_here).
    apply elem_of_cons in Hh as [->|Hh]; [done|].
    apply StronglySorted_cons in Hsorted as [Hall _].
    rewrite Forall_forall in Hall. specialize (Hall p Hp).
    unfold Db.newer_first in Hall.
    apply elem_of_product_docs in Hh. specialize (Hclock _ _ Hh).
    rewrite Hrest in Hall. simpl in Hall. lia. }
  exists t. split; [done|]. intros ps [= <-].
  apply Permutation_cons_inv in Hperm. rewrite Hperm.
  symmetry. apply merge_sort_Permutation.
Qed.

Lemma createProduct_then_getAllProducts_witness :
  ∃ older, getAllProducts shop2
           = Resolved (Product.doc "prod_0002"
                         (Product.mk "prod_0002" "Gadget" "A gadget" "Square"
                            ["u3"] 1 "S1" "C1" active 1004 1005) :: older)
               shop2.
Proof.
  destruct (createProduct_then_getAllProducts gadget ["u3"] shop1 shop2
              (Product.doc "prod_0002"
                 (Product.mk "prod_0002" "Gadget" "A gadget" "Square" ["u3"] 1
                    "S1" "C1" active 1004 1005)))
    as (older & Hlist & _).
  - vm_compute. reflexivity.
  - intros id q Hq.
    assert (products shop1 =
              {[ "prod_0001" :=
                   Product.mk "prod_0001" "Widget" "A widget" "Round"
                     ["u1"; "u2"] 2 "S1" "C1" active 1000 1001 ]}) as Hshop
      by (vm_compute; reflexivity).
    rewrite Hshop in Hq. apply lookup_singleton_Some in Hq as [_ <-].
    vm_compute. reflexivity.
  - exists older. exact Hlist.
Defined.

(** X14. [getSubcategoriesByCategory] resolves with exactly the stored
    subcategories whose [category_id] is the given one, each once, and
    writes nothing. It does not look at the [categories] collection: for
    an identifier that no subcategory names the answer is the empty list,
    not an error. *)
Theorem getSubcategoriesByCategory_owned (categoryId : string) (w : World) :
  ∃ subs, getSubcategoriesByCategory categoryId w = Resolved subs w ∧
    (∀ k sc, (k, sc) ∈ subs ↔
       subcategories w !! k = Some sc ∧ Subcategory.category_id sc = categoryId) ∧
    NoDup (subs.*1) ∧
    ((∀ k sc, subcategories w !! k = Some sc →
        Subcategory.category_id sc ≠ categoryId) → subs = []).
Proof.
  eexists. split; [reflexivity|]. split; [|split].
  - intros k sc. rewrite list_elem_of_filter, elem_of_map_to_list. simpl.
    split; intros [? ?]; by split.
  - apply (NoDup_fmap_fst _).
    + intros k sc1 sc2 H1 H2.
      apply list_elem_of_filter in H1 as [_ H1].
      apply list_elem_of_filter in H2 as [_ H2].
      apply elem_of_map_to_list in H1. apply elem_of_map_to_list in H2.
      congruence.
    + apply NoDup_filter, NoDup_map_to_list.
  - intros Hnone.
    destruct (filter (λ kv, Subcategory.category_id kv.2 = categoryId)
                (map_to_list (subcategories w))) as [|[k sc] rest] eqn:Hf;
      [done|].
    assert ((k, sc) ∈ filter (λ kv, Subcategory.category_id kv.2 = categoryId)
                         (map_to_list (subcategories w))) as Hin
      by (rewrite Hf; apply list_elem_of_here).
    apply list_elem_of_filter in Hin as [Hown Hin].
    apply elem_of_map_to_list in Hin. by destruct (Hnone k sc Hin).
Qed.

(** X15. No writing operation of the service creates, deletes, renames or
    re-parents a category or subcategory: after [createProduct],
    [deleteProduct] and [updateProduct], however they settle, the same
    category and subcategory identifiers are stored, with the names and
    owning categories they had. *)
Theorem writers_keep_parent_identity (w : World) :
  (∀ d urls, parents_kept w (world_of (createProduct d urls w))) ∧
  (∀ id, parents_kept w (world_of (deleteProduct id w))) ∧
  (∀ id u, parents_kept w (world_of (updateProduct id u w))).
Proof.
  assert (∀ f i (m : gmap string Category.t) k,
            (∀ c, Category.name (f c) = Category.name c) →
            (Category.name <$> alter f i m !! k) = (Category.name <$> m !! k))
    as Hcat.
  { intros f i m k Hf. rewrite lookup_alter. case_decide; [subst|done].
    destruct (m !! k); simpl; [by rewrite Hf|done]. }
  assert (∀ f i (m : gmap string Subcategory.t) k,
            (∀ c, Subcategory.name (f c) = Subcategory.name c) →
            (Subcategory.name <$> alter f i m !! k)
            = (Subcategory.name <$> m !! k)) as Hsub.
  { intros f i m k Hf. rewrite lookup_alter. case_decide; [subst|done].
    destruct (m !! k); simpl; [by rewrite Hf|done]. }
  assert (∀ f i (m : gmap string Subcategory.t) k,
            (∀ c, Subcategory.category_id (f c) = Subcategory.category_id c) →
            (Subcategory.category_id <$> alter f i m !! k)
            = (Subcategory.category_id <$> m !! k)) as Hown.
  { intros f i m k Hf. rewrite lookup_alter. case_decide; [subst|done].
    destruct (m !! k); simpl; [by rewrite Hf|done]. }
  split; [|split].
  - intros d urls k.
    destruct (createProduct d urls w) as [p w'|e w'] eqn:Hrun; simpl.
    + destruct (createProduct_resolved _ _ _ _ _ Hrun)
        as (_ & _ & _ & _ & -> & ->).
      by rewrite Hcat, Hsub, Hown.
    + by destruct (createProduct_rejected_inv _ _ _ _ _ Hrun) as [_ ->].
  - intros id k. destruct (products w !! id) as [p|] eqn:Hp.
    + rewrite (deleteProduct_existing id w p Hp). simpl.
      by rewrite Hcat, Hsub, Hown.
    + by rewrite (deleteProduct_missing id w Hp).
  - intros id u k. destruct (products w !! id) as [p|] eqn:Hp.
    + by destruct (updateProduct_cases id u w p Hp) as [[_ ->]|[_ ->]].
    + by rewrite (updateProduct_missing id u w Hp).
Qed.

(** ** The route handler *)

(** X16. A request in which one of the five required text fields is
    missing or empty, or that carries no file under a key starting with
    [images], is answered with status 400; the handler then has not
    touched the store, the clock or the uploader. *)
Theorem POST_rejects_incomplete_request
    (upload : Route.Uploader) (request : Route.Request) (w : World) :
  Route.falsy (Route.product_name request) = true ∨
  Route.falsy (Route.product_title request) = true ∨
  Route.falsy (Route.product_description request) = true ∨
  Route.falsy (Route.category_id request) = true ∨
  Route.falsy (Route.subcategory_id request) = true ∨
  (∀ entry, entry ∈ Route.files request →
     Bson.starts_with "images" entry.1 = false) →
  ∃ error,
    Route.POST upload request w
    = Resolved (Route.mkResponse 400 (Route.Failed error)) w ∧
    ∀ upload', Route.POST upload' request w = Route.POST upload request w.
Proof.
  intros Hbad. unfold Route.POST.
  destruct (Route.falsy (Route.product_name request)
            || Route.falsy (Route.product_title request)
            || Route.falsy (Route.product_description request)
            || Route.falsy (Route.category_id request)
            || Route.falsy (Route.subcategory_id request)) eqn:Hmissing.
  { by eexists. }
  assert (filter (λ entry, Bson.starts_with "images" entry.1 = true)
            (Route.files request) = []) as ->.
  { destruct Hbad as [H|[H|[H|[H|[H|H]]]]];
      try (rewrite H in Hmissing; simpl in Hmissing;
           rewrite ?orb_true_r in Hmissing; discriminate Hmissing).
    induction (Route.files request) as [|entry rest IH]; [done|].
    rewrite filter_cons_False.
    - apply IH. intros e He. apply H. by apply list_elem_of_further.
    - rewrite (H entry (list_elem_of_here _ _)). discriminate. }
  simpl. by eexists.
Qed.

Lemma POST_rejects_incomplete_request_witness :
  ∃ error,
    Route.POST Route.folder_uploader
      (Route.mkRequest (Some "Widget") (Some "") (Some "Round") (Some "C1")
         (Some "S1") None None [])
      shop
    = Resolved (Route.mkResponse 400 (Route.Failed error)) shop.
Proof.
  destruct (POST_rejects_incomplete_request Route.folder_uploader
              (Route.mkRequest (Some "Widget") (Some "") (Some "Round")
                 (Some "C1") (Some "S1") None None [])
              shop) as (error & Hrun & _).
  { right. left. reflexivity. }
  exists error. exact Hrun.
Defined.

(** X17. An answer with status 200 tells what was stored. The five
    required text fields of the request were present and not empty, and
    they are the fields of the product sent back; the request carried at
    least one file under a key starting with [images]; the uploader was
    given the bytes of exactly these files, in the order of the request,
    and the URLs it returned are the [image_urls] of the product, whose
    [image_count] is their number; the product is active and is stored
    under its [_id] in the world the handler leaves. *)
Theorem POST_ok_tells_what_was_stored
    (upload : Route.Uploader) (request : Route.Request) (w w' : World)
    (response : Route.Response) :
  Route.POST upload request w = Resolved response w' →
  Route.status response = 200 →
  ∃ product productId,
    Route.body response
      = Route.Created product "Product created successfully" ∧
    Route.product_name request
      = Some (Product.product_name (Product.rest product)) ∧
    Route.product_title request
      = Some (Product.product_title (Product.rest product)) ∧
    Route.product_description request
      = Some (Product.product_description (Product.rest product)) ∧
    Route.category_id request
      = Some (Product.category_id (Product.rest product)) ∧
    Route.subcategory_id request
      = Some (Product.subcategory_id (Product.rest product)) ∧
    Product.product_name (Product.rest product) ≠ "" ∧
    Product.product_title (Product.rest product) ≠ "" ∧
    Product.product_description (Product.rest product) ≠ "" ∧
    Product.category_id (Product.rest product) ≠ "" ∧
    Product.subcategory_id (Product.rest product) ≠ "" ∧
    filter (λ entry, Bson.starts_with "images" entry.1 = true)
      (Route.files request) ≠ [] ∧
    upload
      ((λ entry, Route.file_bytes entry.2)
         <$> filter (λ entry, Bson.starts_with "images" entry.1 = true)
               (Route.files request))
      productId (Route.category_name request) (Route.subcategory_name request)
      = Some (Product.image_urls (Product.rest product)) ∧
    Product.image_count (Product.rest product)
      = Z.of_nat (length (Product.image_urls (Product.rest product))) ∧
    Product.status (Product.rest product) = active ∧
    products w' !! Product._id product = Some (Product.rest product).
Proof.
  assert (∀ v, Route.falsy v = false → ∃ s, v = Some s ∧ s ≠ "" ∧ default "" v = s)
    as Htruthy.
  { intros [[|c r]|] Hv; try discriminate Hv. exists (String c r). by split. }
  unfold Route.POST. intros Hrun Hok.
  destruct (Route.falsy (Route.product_name request)) eqn:Hname;
    [injection Hrun as <- <-; discriminate Hok|].
  destruct (Route.falsy (Route.product_title request)) eqn:Htitle;
    [injection Hrun as <- <-; discriminate Hok|].
  destruct (Route.falsy (Route.product_description request)) eqn:Hdescription;
    [injection Hrun as <- <-; discriminate Hok|].
  destruct (Route.falsy (Route.category_id request)) eqn:Hcategory;
    [injection Hrun as <- <-; discriminate Hok|].
  destruct (Route.falsy (Route.subcategory_id request)) eqn:Hsubcategory;
    [injection Hrun as <- <-; discriminate Hok|].
  cbv zeta in Hrun. simpl orb in Hrun. cbv iota in Hrun.
  case_bool_decide as Hfiles; [injection Hrun as <- <-; discriminate Hok|].
  destruct (getNextProductId w) as [productId w1|e w1];
    [|injection Hrun as <- <-; discriminate Hok].
  destruct (upload _ productId _ _) as [imageUrls|] eqn:Hupload;
    [|injection Hrun as <- <-; discriminate Hok].
  destruct (createProduct _ imageUrls w1) as [product w2|e w2] eqn:Hcreate;
    [|injection Hrun as <- <-; discriminate Hok].
  injection Hrun as <- <-.
  destruct (createProduct_resolved _ _ _ _ _ Hcreate)
    as (_ & _ & Hrest & Hproducts & _).
  destruct (Htruthy _ Hname) as (name & Hn1 & Hn2 & Hn3).
  destruct (Htruthy _ Htitle) as (title & Ht1 & Ht2 & Ht3).
  destruct (Htruthy _ Hdescription) as (description & Hd1 & Hd2 & Hd3).
  destruct (Htruthy _ Hcategory) as (categoryId & Hc1 & Hc2 & Hc3).
  destruct (Htruthy _ Hsubcategory) as (subcategoryId & Hs1 & Hs2 & Hs3).
  cbn [form_product_name form_product_title form_product_description
       form_category_id form_subcategory_id] in Hrest.
  exists product, productId. rewrite Hrest.
  cbn [Product.product_name Product.product_title Product.product_description
       Product.category_id Product.subcategory_id Product.image_urls
       Product.image_count Product.status].
  rewrite Hn3, Ht3, Hd3, Hc3, Hs3.
  do 11 (split; [done|]).
  split.
  { intros Hnone. apply Hfiles. by rewrite Hnone. }
  split; [exact Hupload|]. split; [done|]. split; [done|].
  rewrite Hproducts, lookup_insert_eq, Hrest, Hn3, Ht3, Hd3, Hc3, Hs3. done.
Qed.

Lemma POST_ok_tells_what_was_stored_witness :
  ∃ product w',
    Route.POST Route.folder_uploader Route.widget_request shop
    = Resolved
        (Route.mkResponse 200
           (Route.Created product "Product created successfully")) w' ∧
    Product.product_name (Product.rest product) = "Widget" ∧
    Product.image_urls (Product.rest product)
      = ["prod_0001/AAA"; "prod_0001/BBB"] ∧
    products w' !! Product._id product = Some (Product.rest product).
Proof.
  assert (Route.POST Route.folder_uploader Route.widget_request shop
          = Resolved
              (Route.mkResponse 200
                 (Route.Created
                    (Product.doc "prod_0001"
                       (Product.mk "prod_0001" "Widget" "A widget" "Round"
                          ["prod_0001/AAA"; "prod_0001/BBB"] 2 "S1" "C1"
                          active 1000 1001))
                    "Product created successfully"))
              (world_of (Route.POST Route.folder_uploader Route.widget_request
                           shop))) as Hvalue
    by (vm_compute; reflexivity).
  destruct (POST_ok_tells_what_was_stored Route.folder_uploader
              Route.widget_request shop _ _ Hvalue eq_refl)
    as (product & productId & Hbody & _ & _ & _ & _ & _ & _ & _ & _ & _ & _
        & _ & _ & _ & _ & Hstored).
  injection Hbody as <-.
  eexists. eexists. split; [exact Hvalue|].
  split; [reflexivity|]. split; [reflexivity|]. exact Hstored.
Defined.

(** ** Pages of the product list *)

Section pages.

Context {A : Type}.

(** A page with a positive number is the chunk of ten items that starts
    ten items per earlier page into the list. *)
Lemma paginatedProducts_chunk (l : list A) (s : nat) :
  ProductListPage.paginatedProducts l (Z.of_nat s + 1)
  = take 10 (drop (10 * s) l).
Proof.
  unfold ProductListPage.paginatedProducts, ProductListPage.slice,
    ProductListPage.ITEMS_PER_PAGE.
  cbv zeta.
  rewrite decide_False by lia. rewrite decide_False by lia.
  destruct (decide (length l ≤ 10 * s)%nat) as [Hshort|Hlong].
  - rewrite (drop_ge l (10 * s)) by done. rewrite take_nil.
    rewrite drop_ge by lia. by rewrite take_nil.
  - replace (Z.to_nat (Z.min ((Z.of_nat s + 1 - 1) * 10) (Z.of_nat (length l))))
      with (10 * s)%nat by lia.
    destruct (decide (length l - 10 * s ≤ 10)%nat) as [Hlast|Hfull].
    + rewrite !take_ge; [done|rewrite length_drop; lia|rewrite length_drop; lia].
    + f_equal. lia.
Qed.

Lemma chunks_concat (k : nat) :
  ∀ l : list A, (length l ≤ 10 * k)%nat →
    concat ((λ i, take 10 (drop (10 * i) l)) <$> seq 0 k) = l.
Proof.
  induction k as [|k IH]; intros l Hlen.
  - destruct l; [done|simpl in Hlen; lia].
  - change (seq 0 (S k)) with (0%nat :: seq 1 k).
    rewrite fmap_cons, <- fmap_S_seq, <- list_fmap_compose.
    change (concat (?x :: ?xs)) with (x ++ concat xs).
    transitivity (take 10 l ++ drop 10 l); [|apply take_drop].
    f_equal.
    rewrite <- (IH (drop 10 l)) by (rewrite length_drop; lia).
    f_equal. apply list_fmap_ext. intros _ i _. simpl.
    rewrite drop_drop. do 2 f_equal. lia.
Qed.

Lemma totalPages_bounds (l : list A) :
  10 * (ProductListPage.totalPages l - 1) < Z.of_nat (length l)
  ∨ (length l = 0%nat ∧ ProductListPage.totalPages l = 0).
Proof.
  unfold ProductListPage.totalPages, ProductListPage.ITEMS_PER_PAGE.
  destruct (decide (length l = 0%nat)) as [->|Hne]; [by right|left].
  pose proof (Z.div_mod (Z.of_nat (length l) + (10 - 1)) 10 ltac:(lia)).
  pose proof (Z.mod_pos_bound (Z.of_nat (length l) + (10 - 1)) 10 ltac:(lia)).
  lia.
Qed.

Lemma totalPages_covers (l : list A) :
  Z.of_nat (length l) ≤ 10 * ProductListPage.totalPages l ∧
  0 ≤ ProductListPage.totalPages l.
Proof.
  unfold ProductListPage.totalPages, ProductListPage.ITEMS_PER_PAGE.
  pose proof (Z.div_mod (Z.of_nat (length l) + (10 - 1)) 10 ltac:(lia)).
  pose proof (Z.mod_pos_bound (Z.of_nat (length l) + (10 - 1)) 10 ltac:(lia)).
  lia.
Qed.

End pages.

(** X18. The pages 1 to [totalPages] cut the filtered list into
    consecutive pieces: put one after the other they give the list back.
    Each of them holds at least one and at most ten products, and the
    caption "Showing first to last" counts exactly the products on the
    page. *)
Theorem pages_partition_the_list {A} (l : list A) :
  concat ((λ i, ProductListPage.paginatedProducts l (Z.of_nat i + 1))
            <$> seq 0 (Z.to_nat (ProductListPage.totalPages l))) = l ∧
  ∀ page, 1 ≤ page ≤ ProductListPage.totalPages l →
    (1 ≤ length (ProductListPage.paginatedProducts l page) ≤ 10)%nat ∧
    Z.of_nat (length (ProductListPage.paginatedProducts l page))
    = ProductListPage.showing_last l page
      - ProductListPage.showing_first page + 1.
Proof.
  destruct (totalPages_covers l) as [Hcover Hpos]. split.
  - assert ((λ i, ProductListPage.paginatedProducts l (Z.of_nat i + 1))
              <$> seq 0 (Z.to_nat (ProductListPage.totalPages l))
            = (λ i, take 10 (drop (10 * i) l))
                <$> seq 0 (Z.to_nat (ProductListPage.totalPages l))) as ->.
    { apply list_fmap_ext. intros _ i _. apply paginatedProducts_chunk. }
    apply chunks_concat. lia.
  - intros page Hpage.
    replace page with (Z.of_nat (Z.to_nat (page - 1)) + 1) by lia.
    rewrite paginatedProducts_chunk.
    rewrite length_take, length_drop.
    unfold ProductListPage.showing_last, ProductListPage.showing_first,
      ProductListPage.ITEMS_PER_PAGE.
    destruct (totalPages_bounds l) as [Hlast|[_ Hzero]]; lia.
Qed.

(** X19. A page number above [totalPages], as it is left behind when
    products disappear from the list, and page 0 show no product at all.
    [goToPage], from whatever page it is called, also such a stale one,
    shows the requested page when that lies between 1 and [totalPages],
    and stays on the current page for every other request; so from a page
    between 1 and [totalPages] it never leaves that range. *)
Theorem pages_out_of_range {A} (l : list A) (currentPage page : Z) :
  (ProductListPage.totalPages l < page ∨ page = 0 →
   ProductListPage.paginatedProducts l page = []) ∧
  (1 ≤ page ≤ ProductListPage.totalPages l →
   ProductListPage.goToPage l currentPage page = page) ∧
  (page < 1 ∨ ProductListPage.totalPages l < page →
   ProductListPage.goToPage l currentPage page = currentPage) ∧
  (1 ≤ currentPage ≤ ProductListPage.totalPages l →
   1 ≤ ProductListPage.goToPage l currentPage page
     ≤ ProductListPage.totalPages l).
Proof.
  destruct (totalPages_covers l) as [Hcover Hpos]. split; [|split; [|split]].
  - intros [Hbeyond| ->].
    + replace page with (Z.of_nat (Z.to_nat (page - 1)) + 1) by lia.
      rewrite paginatedProducts_chunk. rewrite drop_ge by lia. apply take_nil.
    + unfold ProductListPage.paginatedProducts, ProductListPage.slice,
        ProductListPage.ITEMS_PER_PAGE. cbv zeta.
      repeat case_decide; try lia.
      match goal with
      | |- take ?n _ = _ => replace n with 0%nat by lia
      end.
      apply take_0.
  - intros Hin. unfold ProductListPage.goToPage. by rewrite decide_True.
  - intros Hout. unfold ProductListPage.goToPage.
    rewrite decide_False; [done|]. lia.
  - intros Hcurrent. unfold ProductListPage.goToPage. case_decide; lia.
Qed.

(** X20. On a page between 1 and [totalPages] the page buttons show
    [min(5, totalPages)] consecutive page numbers, all between 1 and
    [totalPages], and the current page is one of them. *)
Theorem pageButtons_window (totalPages currentPage : Z) :
  1 ≤ currentPage ≤ totalPages →
  ∃ first,
    ProductListPage.pageButtons totalPages currentPage
    = (λ i, first + Z.of_nat i) <$> seq 0 (Z.to_nat (Z.min 5 totalPages)) ∧
    1 ≤ first ∧
    first + Z.min 5 totalPages - 1 ≤ totalPages ∧
    first ≤ currentPage ≤ first + Z.min 5 totalPages - 1.
Proof.
  intros Hpage. unfold ProductListPage.pageButtons, ProductListPage.pageNum.
  destruct (decide (totalPages ≤ 5)) as [Hfew|Hmany].
  { exists 1. split; [|lia]. apply list_fmap_ext. intros _ i _. lia. }
  destruct (decide (currentPage ≤ 3)) as [Hstart|Hlater].
  { exists 1. split; [|lia]. apply list_fmap_ext. intros _ i _. lia. }
  destruct (decide (totalPages - 2 ≤ currentPage)) as [Hend|Hmiddle].
  { exists (totalPages - 4). split; [|lia].
    apply list_fmap_ext. intros _ i _. lia. }
  exists (currentPage - 2). split; [|lia].
  apply list_fmap_ext. intros _ i _. lia.
Qed.

Lemma pageButtons_window_witness :
  ProductListPage.pageButtons 9 6 = [4; 5; 6; 7; 8].
Proof.
  destruct (pageButtons_window 9 6) as (first & Hbuttons & _ & _ & Hin);
    [lia|].
  rewrite Hbuttons.
  assert (first = 4) as ->.
  { assert (ProductListPage.pageButtons 9 6 !! 0%nat = Some 4) as H0
      by reflexivity.
    rewrite Hbuttons in H0. simpl in H0. injection H0 as H0. lia. }
  reflexivity.
Defined.

(** ** The image picker *)

Section picker.

Global Instance acceptable_dec (props : ImageUpload.Props)
    (file : ImageUpload.File) : Decision (ImageUpload.acceptable props file).
Proof. unfold ImageUpload.acceptable. apply _. Defined.

(** [validateFiles] keeps the acceptable files, in order, and writes one
    message for each of the others. *)
Lemma validate_from_filter (props : ImageUpload.Props)
    (files : list ImageUpload.File) :
  ∀ index,
    (ImageUpload.validate_from props index files).1
      = filter (ImageUpload.acceptable props) files ∧
    (length (ImageUpload.validate_from props index files).1
     + length (ImageUpload.validate_from props index files).2
     = length files)%nat.
Proof.
  induction files as [|file rest IH]; intros index; [done|].
  simpl. destruct (IH (S index)) as [Hvalid Hcount].
  destruct (ImageUpload.validate_from props (S index) rest)
    as [validFiles newErrors].
  simpl in Hvalid, Hcount. unfold ImageUpload.acceptable at 1.
  case_bool_decide as Htype; simpl.
  - case_bool_decide as Hsize; simpl.
    + rewrite filter_cons_False by (unfold ImageUpload.acceptable; lia).
      split; [done|lia].
    + rewrite filter_cons_True by (unfold ImageUpload.acceptable; split; [done|lia]).
      split; [by f_equal|lia].
  - rewrite filter_cons_False by (unfold ImageUpload.acceptable; tauto).
    split; [done|lia].
Qed.

Lemma filter_all_length {B} (P : B → Prop) `{∀ x, Decision (P x)} (l : list B) :
  length (filter P l) = length l → filter P l = l.
Proof.
  induction l as [|x l IH]; [done|]. intros Hlen.
  destruct (decide (P x)) as [Hx|Hx].
  - rewrite filter_cons_True in * by done. simpl in Hlen. f_equal. apply IH. lia.
  - rewrite filter_cons_False in Hlen by done.
    pose proof (length_filter P l). simpl in Hlen. lia.
Qed.

Lemma remove_at_spec {B} (index : Z) (l : list B) :
  ∀ i : nat,
    ImageUpload.remove_at i index l
    = if decide (Z.of_nat i ≤ index < Z.of_nat i + Z.of_nat (length l))
      then take (Z.to_nat (index - Z.of_nat i)) l
             ++ drop (S (Z.to_nat (index - Z.of_nat i))) l
      else l.
Proof.
  induction l as [|x rest IH]; intros i.
  - case_decide; [simpl in *; lia|done].
  - cbn [ImageUpload.remove_at]. rewrite (IH (S i)).
    change (length (x :: rest)) with (S (length rest)).
    case_bool_decide as Hhere.
    + destruct (decide (Z.of_nat (S i) ≤ index
                        < Z.of_nat (S i) + Z.of_nat (length rest)))
        as [Hin|Hout].
      * rewrite decide_True by lia.
        replace (Z.to_nat (index - Z.of_nat i))
          with (S (Z.to_nat (index - Z.of_nat (S i)))) by lia.
        done.
      * rewrite decide_False by lia. done.
    + assert (index = Z.of_nat i) as ->.
      { destruct (decide (index = Z.of_nat i)) as [Heq|Hne]; [done|].
        destruct Hhere. congruence. }
      rewrite decide_False by lia. rewrite decide_True by lia.
      replace (Z.to_nat (Z.of_nat i - Z.of_nat i)) with 0%nat by lia.
      done.
Qed.

End picker.

(** X21. The picker never holds more than [maxImages] images, nor an
    image whose type is not accepted or whose size exceeds
    [maxSizePerImage] MB: both hold of the initial state when [maxImages]
    is not negative, and [handleFileSelect] and [removeImage] keep them. *)
Theorem picker_keeps_its_limits (props : ImageUpload.Props) :
  let within (st : ImageUpload.State) :=
    Z.of_nat (length (ImageUpload.selectedImages st))
      ≤ ImageUpload.maxImages props ∧
    Forall (ImageUpload.acceptable props) (ImageUpload.selectedImages st) in
  (0 ≤ ImageUpload.maxImages props → within ImageUpload.initial) ∧
  (∀ st files, within st →
     within (ImageUpload.handleFileSelect props files st)) ∧
  (∀ st index, within st → within (ImageUpload.removeImage index st)).
Proof.
  cbv zeta. split; [|split].
  - intros Hmax. split; [simpl; lia|apply Forall_nil_2].
  - intros st [fileArray|] [Hlen Hall]; [|done].
    unfold ImageUpload.handleFileSelect. case_bool_decide as Hmany; [done|].
    unfold ImageUpload.validateFiles.
    destruct (validate_from_filter props fileArray 0) as [Hvalid Hcount].
    destruct (ImageUpload.validate_from props 0 fileArray)
      as [validFiles validationErrors].
    simpl in Hvalid, Hcount. case_bool_decide; [done|]. simpl. split.
    + rewrite length_app. lia.
    + apply Forall_app. split; [done|]. rewrite Hvalid.
      apply Forall_forall. intros f Hf. by apply list_elem_of_filter in Hf as [? _].
  - intros st index [Hlen Hall]. unfold ImageUpload.removeImage. simpl.
    rewrite remove_at_spec. case_decide; [|done]. split.
    + rewrite length_app, length_take, length_drop. lia.
    + apply Forall_app. split.
      * by apply Forall_take.
      * by apply Forall_drop.
Qed.

(** X22. [handleFileSelect] takes a batch as a whole or not at all.
    Without files ([null]) nothing changes. A batch that would exceed
    [maxImages] leaves the selection and gives one message. A batch
    within the limit is appended in its order when every file is
    acceptable, and the messages are cleared; otherwise the selection
    stays and there is one message for each file that is not acceptable. *)
Theorem handleFileSelect_all_or_nothing
    (props : ImageUpload.Props) (st : ImageUpload.State)
    (fileArray : list ImageUpload.File) :
  ImageUpload.handleFileSelect props None st = st ∧
  (ImageUpload.maxImages props
     < Z.of_nat (length (ImageUpload.selectedImages st))
       + Z.of_nat (length fileArray) →
   ImageUpload.selectedImages
     (ImageUpload.handleFileSelect props (Some fileArray) st)
     = ImageUpload.selectedImages st ∧
   length (ImageUpload.errors
             (ImageUpload.handleFileSelect props (Some fileArray) st)) = 1%nat) ∧
  (Z.of_nat (length (ImageUpload.selectedImages st))
     + Z.of_nat (length fileArray) ≤ ImageUpload.maxImages props →
   (Forall (ImageUpload.acceptable props) fileArray →
    ImageUpload.handleFileSelect props (Some fileArray) st
    = ImageUpload.mkState (ImageUpload.selectedImages st ++ fileArray) []) ∧
   (¬ Forall (ImageUpload.acceptable props) fileArray →
    ImageUpload.selectedImages
      (ImageUpload.handleFileSelect props (Some fileArray) st)
      = ImageUpload.selectedImages st) ∧
   (length (ImageUpload.errors
              (ImageUpload.handleFileSelect props (Some fileArray) st))
    + length (filter (ImageUpload.acceptable props) fileArray)
    = length fileArray)%nat).
Proof.
  split; [done|]. unfold ImageUpload.handleFileSelect. split.
  - intros Hmany. rewrite bool_decide_eq_true_2 by done. by split.
  - intros Hfew. rewrite bool_decide_eq_false_2 by lia.
    unfold ImageUpload.validateFiles.
    destruct (validate_from_filter props fileArray 0) as [Hvalid Hcount].
    destruct (ImageUpload.validate_from props 0 fileArray)
      as [validFiles validationErrors].
    simpl in Hvalid, Hcount. subst validFiles.
    split; [|split].
    + intros Hall.
      assert (filter (ImageUpload.acceptable props) fileArray = fileArray)
        as Hsame.
      { clear Hcount Hfew. induction Hall as [|f l Hf _ IH]; [done|].
        rewrite filter_cons_True by done. by f_equal. }
      rewrite Hsame in *.
      rewrite bool_decide_eq_false_2 by lia.
      destruct validationErrors; [done|simpl in Hcount; lia].
    + intros Hsome. case_bool_decide as Herr; [done|].
      destruct Hsome. destruct validationErrors; [|simpl in Herr; lia].
      simpl in Hcount. rewrite Nat.add_0_r in Hcount.
      apply filter_all_length in Hcount. rewrite <- Hcount.
      apply Forall_forall. intros f Hf.
      by apply list_elem_of_filter in Hf as [? _].
    + case_bool_decide as Herr; simpl; [lia|].
      destruct validationErrors; [simpl in *; lia|simpl in Herr; lia].
Qed.

(** X23. [removeImage] with the position of a selected image removes
    that image and no other, keeping the order; with any other number,
    negative or past the end, it leaves the selection as it is. Either
    way the messages are cleared. *)
Theorem removeImage_at_position (index : Z) (st : ImageUpload.State) :
  ImageUpload.errors (ImageUpload.removeImage index st) = [] ∧
  (0 ≤ index < Z.of_nat (length (ImageUpload.selectedImages st)) →
   ImageUpload.selectedImages (ImageUpload.removeImage index st)
   = take (Z.to_nat index) (ImageUpload.selectedImages st)
       ++ drop (S (Z.to_nat index)) (ImageUpload.selectedImages st) ∧
   S (length (ImageUpload.selectedImages (ImageUpload.removeImage index st)))
   = length (ImageUpload.selectedImages st)) ∧
  (index < 0 ∨ Z.of_nat (length (ImageUpload.selectedImages st)) ≤ index →
   ImageUpload.selectedImages (ImageUpload.removeImage index st)
   = ImageUpload.selectedImages st).
Proof.
  split; [done|]. unfold ImageUpload.removeImage. simpl.
  rewrite remove_at_spec. split.
  - intros Hin. rewrite decide_True by lia.
    replace (index - Z.of_nat 0) with index by lia. split; [done|].
    rewrite length_app, length_take, length_drop. lia.
  - intros Hout. by rewrite decide_False by lia.
Qed.
